(** * Trading simulator: position lifecycle and portfolio accounting

    A shallow embedding of [config.py], [portfolio.py], the price-change
    computation of [data_fetcher.py] and the trading cycle of
    [trading_logic.py], with the properties of the ledger and of the cycle
    proved over it.

    Numbers.  The program computes with Python [float]s, IEEE 754 binary64
    numbers.  Two readings of them are used.  The statements about order,
    membership and counting, and about which comparison decides an
    outcome, are made over exact rationals ([Q], compared with [==]),
    where the one float operation of the ledger that can raise, true
    division by a Python float zero, is kept as an error outcome.  The
    statements about the amounts the ledger computes (quantities, exit
    levels, profit and loss, cash) are made over binary64 itself, in the
    module [F64]: the primitive floats, every operation rounded to nearest
    as Python and numpy round it, and a price either a Python float or a
    [numpy.float64].  Sums and products of floats do not obey the
    identities of the rationals, and the amounts are stated as the float
    operations that produce them.

    State.  [Portfolio] is a mutable object; its methods become functions
    that take the state before the call and give back the returned value
    (or the exception raised) together with the state after it.  The
    [positions] dictionary is a [gmap] from ticker to [Position]; the order
    in which Python walks a dictionary is not kept, and nothing below
    depends on it.

    Outside world.  The market data provider and the files are reached
    through the interface [Collaborators]; the engine threads the state of
    the world through its calls, so that a provider may answer differently
    each time it is asked.

    The timestamps ([entry_date], [timestamp]) come from [datetime.now()]
    and are never read back; they and the logger calls are left out. *)

From Stdlib Require Import QArith Qround Lqa Lia.
From Stdlib Require Import PrimFloat.
From stdpp Require Import gmap strings list fin_maps.

Set Warnings "-inexact-float".

Local Open Scope Q_scope.

(* ===================================================================== *)
(** ** Python values *)
(* ===================================================================== *)

Module Py.

(** Exceptions the modelled code can raise. *)
Inductive exn : Set := ZeroDivisionError.

(** What a call gives back: a returned value or a raised exception. *)
Inductive result (A : Type) : Type :=
| Return (a : A)
| Raise (e : exn).
Global Arguments Return {A} a.
Global Arguments Raise {A} e.

(** Float comparisons [x >= y], [x <= y], [x > y], [x < y]. *)
Definition ge (x y : Q) : bool := Qle_bool y x.
Definition le (x y : Q) : bool := Qle_bool x y.
Definition gt (x y : Q) : bool := negb (Qle_bool x y).
Definition lt (x y : Q) : bool := negb (Qle_bool y x).

(** Truth value of a float: [0.0] is false. *)
Definition truthy (x : Q) : bool := negb (Qeq_bool x 0).

(** [x / y] on floats raises [ZeroDivisionError] when [y] is zero. *)
Definition div (x y : Q) : result Q :=
  if Qeq_bool y 0 then Raise ZeroDivisionError else Return (x / y).

(** [int(x)] truncates toward zero. *)
Definition int (x : Q) : Z := Z.quot (Qnum x) (Zpos (Qden x)).

(** A [nat] (a [len(...)]) used as a number. *)
Definition of_nat (n : nat) : Q := inject_Z (Z.of_nat n).

End Py.

(* ===================================================================== *)
(** ** config.py *)
(* ===================================================================== *)

Definition INITIAL_BUDGET : Q := 1000.
Definition POSITION_SIZE : Q := 10.
Definition MAX_POSITIONS : Z := Py.int (INITIAL_BUDGET / POSITION_SIZE).

Definition SHORT_TRIGGER : Q := 0.10.
Definition BUY_TRIGGER : Q := - 0.05.
Definition TAKE_PROFIT : Q := 0.03.
Definition STOP_LOSS : Q := - 0.05.

Definition LOOKBACK_DAYS : nat := 7.

(* ===================================================================== *)
(** ** portfolio.py: the data model *)
(* ===================================================================== *)

Inductive PositionType : Set := LONG | SHORT.

Record Position : Type := mkPosition {
  ticker : string;
  position_type : PositionType;
  entry_price : Q;
  quantity : Q;
  stop_loss : Q;
  take_profit : Q
}.

(** [action] is one of "BUY", "SELL", "SHORT", "COVER"; [profit_loss]
    defaults to [0.0] in the dataclass. *)
Record Trade : Type := mkTrade {
  trade_ticker : string;
  action : string;
  price : Q;
  trade_quantity : Q;
  profit_loss : Q;
  reason : string
}.

Record Portfolio : Type := mkPortfolio {
  cash : Q;
  positions : gmap string Position;
  trades : list Trade
}.

(** The state [Portfolio.__init__] sets up before any file is loaded. *)
Definition initial_portfolio : Portfolio :=
  {| cash := INITIAL_BUDGET; positions := ∅; trades := [] |}.

(** [len(self.positions)]. *)
Definition open_count (s : Portfolio) : nat := size (positions s).

(** [ticker in self.positions]. *)
Definition has_position (t : string) (s : Portfolio) : bool :=
  bool_decide (is_Some (positions s !! t)).

(* ===================================================================== *)
(** ** portfolio.py: the operations *)
(* ===================================================================== *)

Definition can_open_position (s : Portfolio) : bool :=
  Py.ge (cash s) POSITION_SIZE && (Z.of_nat (open_count s) <? MAX_POSITIONS)%Z.

Definition open_long_position (t : string) (p : Q) (s : Portfolio)
  : Py.result bool * Portfolio :=
  if negb (can_open_position s) then (Py.Return false, s)
  else if has_position t s then (Py.Return false, s)
  else
    match Py.div POSITION_SIZE p with
    | Py.Raise e => (Py.Raise e, s)
    | Py.Return qty =>
        let sl := p * (1 + STOP_LOSS) in
        let tp := p * (1 + TAKE_PROFIT) in
        let position := mkPosition t LONG p qty sl tp in
        let trade :=
          mkTrade t "BUY" p qty 0 "Price dropped 5% - buying opportunity" in
        (Py.Return true,
         {| cash := cash s - POSITION_SIZE;
            positions := <[t := position]> (positions s);
            trades := trades s ++ [trade] |})
    end.

Definition open_short_position (t : string) (p : Q) (s : Portfolio)
  : Py.result bool * Portfolio :=
  if negb (can_open_position s) then (Py.Return false, s)
  else if has_position t s then (Py.Return false, s)
  else
    match Py.div POSITION_SIZE p with
    | Py.Raise e => (Py.Raise e, s)
    | Py.Return qty =>
        let sl := p * (1 - STOP_LOSS) in
        let tp := p * (1 - TAKE_PROFIT) in
        let position := mkPosition t SHORT p qty sl tp in
        let trade :=
          mkTrade t "SHORT" p qty 0 "Price jumped 10% - shorting opportunity" in
        (Py.Return true,
         {| cash := cash s - POSITION_SIZE;
            positions := <[t := position]> (positions s);
            trades := trades s ++ [trade] |})
    end.

Definition close_position (t : string) (current_price : Q) (why : string)
    (s : Portfolio) : Py.result bool * Portfolio :=
  match positions s !! t with
  | None => (Py.Return false, s)
  | Some position =>
      let '(pl, act) :=
        match position_type position with
        | LONG =>
            ((current_price - entry_price position) * quantity position,
             "SELL"%string)
        | SHORT =>
            ((entry_price position - current_price) * quantity position,
             "COVER"%string)
        end in
      let trade :=
        mkTrade t act current_price (quantity position) pl why in
      (Py.Return true,
       {| cash := cash s + (POSITION_SIZE + pl);
          positions := delete t (positions s);
          trades := trades s ++ [trade] |})
  end.

Definition TAKE_PROFIT_REACHED : string := "Take profit reached".
Definition STOP_LOSS_TRIGGERED : string := "Stop loss triggered".

Definition should_close_position (t : string) (current_price : Q)
    (s : Portfolio) : option string :=
  match positions s !! t with
  | None => None
  | Some position =>
      match position_type position with
      | LONG =>
          if Py.ge current_price (take_profit position)
          then Some TAKE_PROFIT_REACHED
          else if Py.le current_price (stop_loss position)
          then Some STOP_LOSS_TRIGGERED
          else None
      | SHORT =>
          if Py.le current_price (take_profit position)
          then Some TAKE_PROFIT_REACHED
          else if Py.ge current_price (stop_loss position)
          then Some STOP_LOSS_TRIGGERED
          else None
      end
  end.

(** The value [get_portfolio_value] adds for one entry of [positions]. *)
Definition position_value (current_prices : gmap string Q) (t : string)
    (position : Position) : Q :=
  match current_prices !! t with
  | Some current_price =>
      match position_type position with
      | LONG => current_price * quantity position
      | SHORT =>
          POSITION_SIZE + (entry_price position - current_price) * quantity position
      end
  | None => POSITION_SIZE
  end.

(** The loop over [self.positions.items()], accumulating in [total_value]. *)
Definition get_portfolio_value (current_prices : gmap string Q)
    (s : Portfolio) : Q :=
  map_fold
    (fun t position total_value =>
       total_value + position_value current_prices t position)
    (cash s) (positions s).

Record Statistics : Type := mkStatistics {
  total_trades : nat;
  profitable_trades : nat;
  losing_trades : nat;
  win_rate : Q;
  total_profit : Q;
  stat_cash : Q;
  active_positions : nat
}.

(** [sum(t.profit_loss for t in trades)]: the built-in [sum] starts from
    [0] and adds from the left. *)
Definition sum_profit_loss (l : list Trade) : Q :=
  fold_left (fun acc t => acc + profit_loss t) l 0.

Definition get_statistics (s : Portfolio) : Statistics :=
  let total := length (trades s) in
  let profitable :=
    length (List.filter (fun t => Py.gt (profit_loss t) 0) (trades s)) in
  let losing :=
    length (List.filter (fun t => Py.lt (profit_loss t) 0) (trades s)) in
  let profit := sum_profit_loss (trades s) in
  let rate :=
    if (0 <? total)%nat then Py.of_nat profitable / Py.of_nat total else 0 in
  {| total_trades := total;
     profitable_trades := profitable;
     losing_trades := losing;
     win_rate := rate;
     total_profit := profit;
     stat_cash := cash s;
     active_positions := open_count s |}.

(* ===================================================================== *)
(** ** Sequences of ledger calls *)
(* ===================================================================== *)

(** One call of a mutating method of [Portfolio], with its arguments. *)
Inductive call : Type :=
| OpenLong (t : string) (p : Q)
| OpenShort (t : string) (p : Q)
| Close (t : string) (p : Q) (why : string).

Definition call_ticker (c : call) : string :=
  match c with
  | OpenLong t _ | OpenShort t _ | Close t _ _ => t
  end.

Definition exec (c : call) (s : Portfolio) : Py.result bool * Portfolio :=
  match c with
  | OpenLong t p => open_long_position t p s
  | OpenShort t p => open_short_position t p s
  | Close t p why => close_position t p why s
  end.

(** The state a call leaves behind, whatever it returned or raised. *)
Definition after (c : call) (s : Portfolio) : Portfolio := snd (exec c s).

Definition run (cs : list call) (s : Portfolio) : Portfolio :=
  fold_left (fun s c => after c s) cs s.

(** States reachable from the initial one by ledger calls. *)
Inductive reachable : Portfolio -> Prop :=
| reachable_initial : reachable initial_portfolio
| reachable_call c s : reachable s -> reachable (after c s).

(** [open] in the direction [d]. *)
Definition open_position (d : PositionType) :
    string -> Q -> Portfolio -> Py.result bool * Portfolio :=
  match d with
  | LONG => open_long_position
  | SHORT => open_short_position
  end.

(* ===================================================================== *)
(** ** data_fetcher.py: the price change over the lookback window *)
(* ===================================================================== *)

(** The [Close] column of a data frame holds numpy floats.  Dividing one
    by zero does not raise: it gives an infinity or a NaN (the sign of a
    zero divisor is not modelled). *)
Inductive float64 : Type :=
| Fin (x : Q)
| PosInf
| NegInf
| NaN.

Definition np_div (x y : Q) : float64 :=
  if Qeq_bool y 0 then
    if Py.gt x 0 then PosInf else if Py.lt x 0 then NegInf else NaN
  else Fin (x / y).

Definition np_ge (x : float64) (y : Q) : bool :=
  match x with
  | Fin q => Py.ge q y
  | PosInf => true
  | NegInf | NaN => false
  end.

Definition np_le (x : float64) (y : Q) : bool :=
  match x with
  | Fin q => Py.le q y
  | NegInf => true
  | PosInf | NaN => false
  end.

(** [data] is the [Close] column, oldest first; [iloc[-1]] is its last
    entry and [iloc[-(days + 1)]] the one [days] rows before it. *)
Definition calculate_price_change (data : list Q) (days : nat)
    : option float64 :=
  if (length data <? days + 1)%nat then None
  else
    match data !! (length data - 1)%nat,
          data !! (length data - (days + 1))%nat with
    | Some current_price, Some past_price =>
        Some (np_div (current_price - past_price) past_price)
    | _, _ => None
    end.

(* ===================================================================== *)
(** ** trading_logic.py: the trading engine *)
(* ===================================================================== *)

(** What the engine asks of the outside: the market data provider
    ([DataFetcher]) and the files [save_portfolio] writes.  A call may
    answer differently each time, so each takes the state of the outside
    world and gives back the next one.  All of them catch their own
    exceptions: a failure is an answer of [None] or of no data. *)
Class Collaborators (World : Type) : Type := {
  get_sp500_companies : World -> list string * World;
  get_stock_data : list string -> World -> gmap string (list Q) * World;
  get_current_price : string -> World -> option Q * World;
  save_portfolio : Portfolio -> World -> World
}.

(** The engine object: its portfolio and the world its fetcher talks to. *)
Record Engine (World : Type) : Type := mkEngine {
  portfolio : Portfolio;
  world : World
}.
Arguments mkEngine {World} portfolio world.
Arguments portfolio {World} e.
Arguments world {World} e.

Section TradingEngine.
Context {World : Type} `{!Collaborators World}.

(** Engine code: it changes the engine in place and returns or raises.
    The state survives a raise. *)
Definition M (A : Type) : Type := Engine World -> Py.result A * Engine World.

Definition ret {A : Type} (a : A) : M A := fun e => (Py.Return a, e).

Definition bind {A B : Type} (c : M A) (k : A -> M B) : M B :=
  fun e =>
    match c e with
    | (Py.Return a, e') => k a e'
    | (Py.Raise x, e') => (Py.Raise x, e')
    end.

(** A call of a [Portfolio] method on [self.portfolio]. *)
Definition on_portfolio {A : Type}
    (f : Portfolio -> Py.result A * Portfolio) : M A :=
  fun e =>
    let '(r, s) := f (portfolio e) in
    (r, mkEngine s (world e)).

(** A call of a collaborator. *)
Definition on_world {A : Type} (f : World -> A * World) : M A :=
  fun e =>
    let '(a, w) := f (world e) in
    (Py.Return a, mkEngine (portfolio e) w).

Definition the_portfolio : M Portfolio := fun e => (Py.Return (portfolio e), e).

Local Notation "'do' x <- c ;; k" := (bind c (fun x => k))
  (at level 10, x name, c at level 99, k at level 200).

(** The loop of [scan_for_opportunities] over [tickers]. *)
Fixpoint scan_loop (stock_data : gmap string (list Q)) (s : Portfolio)
    (tickers : list string) (long_candidates short_candidates : list string)
    : list string * list string :=
  match tickers with
  | [] => (long_candidates, short_candidates)
  | t :: rest =>
      if has_position t s
      then scan_loop stock_data s rest long_candidates short_candidates
      else
        match stock_data !! t with
        | None => scan_loop stock_data s rest long_candidates short_candidates
        | Some data =>
            match calculate_price_change data LOOKBACK_DAYS with
            | None =>
                scan_loop stock_data s rest long_candidates short_candidates
            | Some price_change =>
                if np_ge price_change SHORT_TRIGGER
                then scan_loop stock_data s rest
                       long_candidates (short_candidates ++ [t])
                else if np_le price_change BUY_TRIGGER
                then scan_loop stock_data s rest
                       (long_candidates ++ [t]) short_candidates
                else scan_loop stock_data s rest
                       long_candidates short_candidates
            end
        end
  end.

Definition scan_for_opportunities (tickers : list string)
    : M (list string * list string) :=
  do stock_data <- on_world (get_stock_data tickers) ;;
  do s <- the_portfolio ;;
  ret (scan_loop stock_data s tickers [] []).

(** One of the two loops of [execute_trades]; [open] is
    [open_long_position] in the first and [open_short_position] in the
    second.  Leaving the recursion is the [break]. *)
Fixpoint execute_loop
    (open : string -> Q -> Portfolio -> Py.result bool * Portfolio)
    (candidates : list string) : M unit :=
  match candidates with
  | [] => ret tt
  | t :: rest =>
      do s <- the_portfolio ;;
      if negb (can_open_position s) then ret tt
      else
        do current_price <- on_world (get_current_price t) ;;
        match current_price with
        | Some p =>
            if Py.truthy p
            then do _ <- on_portfolio (open t p) ;; execute_loop open rest
            else execute_loop open rest
        | None => execute_loop open rest
        end
  end.

Definition execute_trades (long_candidates short_candidates : list string)
    : M unit :=
  do _ <- execute_loop open_long_position long_candidates ;;
  execute_loop open_short_position short_candidates.

(** First loop of [check_exit_conditions]: it only reads the portfolio. *)
Fixpoint collect_exits (keys : list string)
    (positions_to_close : list (string * Q * string))
    : M (list (string * Q * string)) :=
  match keys with
  | [] => ret positions_to_close
  | t :: rest =>
      do current_price <- on_world (get_current_price t) ;;
      match current_price with
      | Some p =>
          if Py.truthy p then
            do s <- the_portfolio ;;
            match should_close_position t p s with
            | Some why =>
                if negb (String.eqb why "")
                then collect_exits rest (positions_to_close ++ [(t, p, why)])
                else collect_exits rest positions_to_close
            | None => collect_exits rest positions_to_close
            end
          else collect_exits rest positions_to_close
      | None => collect_exits rest positions_to_close
      end
  end.

(** Second loop of [check_exit_conditions]. *)
Fixpoint close_all (positions_to_close : list (string * Q * string))
    : M unit :=
  match positions_to_close with
  | [] => ret tt
  | (t, p, why) :: rest =>
      do _ <- on_portfolio (close_position t p why) ;; close_all rest
  end.

Definition check_exit_conditions : M unit :=
  do s <- the_portfolio ;;
  do positions_to_close <- collect_exits (map_to_list (positions s)).*1 [] ;;
  close_all positions_to_close.

(** The cycle up to and including the exit checks. *)
Definition cycle_exits : M (list string) :=
  do tickers <- on_world get_sp500_companies ;;
  do _ <- check_exit_conditions ;;
  ret tickers.

(** The rest of the cycle: scan, entries, save. *)
Definition cycle_entries (tickers : list string) : M unit :=
  do candidates <- scan_for_opportunities tickers ;;
  do _ <- execute_trades candidates.1 candidates.2 ;;
  do s <- the_portfolio ;;
  on_world (fun w => (tt, save_portfolio s w)).

(** [run_trading_cycle]: the body runs inside [try]; an exception is
    logged and the engine is left as it was when it was raised. *)
Definition run_trading_cycle (e : Engine World) : Engine World :=
  snd ((do tickers <- cycle_exits ;; cycle_entries tickers) e).

End TradingEngine.

(* ===================================================================== *)
(** ** portfolio.py in binary64 *)
(* ===================================================================== *)

(** The same ledger with the numbers the program has: IEEE 754 binary64
    floats, every operation rounded to nearest.  The statements about the
    amounts the ledger computes are made on this reading; the exact reading
    above serves the statements about order, membership and counting. *)
Module F64.

Definition INITIAL_BUDGET : float := 1000.
Definition POSITION_SIZE : float := 10.
Definition TAKE_PROFIT : float := 0.03.
Definition STOP_LOSS : float := -0.05.

(** A price handed to an open: a Python number ([PyFloat]: a [float], or
    an [int] that the arithmetic converts to one), or a [numpy.float64] as
    [get_current_price] returns it.  The two compute alike except on
    division by zero. *)
Inductive number : Type :=
| PyFloat (x : float)
| NpFloat64 (x : float).

Definition value (p : number) : float :=
  match p with
  | PyFloat x | NpFloat64 x => x
  end.

(** [x / p] for a Python float [x]: dividing by a Python float zero raises
    [ZeroDivisionError]; dividing by a numpy zero gives an infinity or a
    NaN, as IEEE division does. *)
Definition div (x : float) (p : number) : Py.result float :=
  match p with
  | PyFloat y =>
      if (y =? 0)%float then Py.Raise Py.ZeroDivisionError
      else Py.Return (x / y)%float
  | NpFloat64 y => Py.Return (x / y)%float
  end.

Record Position : Type := mkPosition {
  ticker : string;
  position_type : PositionType;
  entry_price : float;
  quantity : float;
  stop_loss : float;
  take_profit : float
}.

Record Trade : Type := mkTrade {
  trade_ticker : string;
  action : string;
  price : float;
  trade_quantity : float;
  profit_loss : float;
  reason : string
}.

Record Portfolio : Type := mkPortfolio {
  cash : float;
  positions : gmap string Position;
  trades : list Trade
}.

Definition initial_portfolio : Portfolio :=
  {| cash := INITIAL_BUDGET; positions := ∅; trades := [] |}.

Definition open_count (s : Portfolio) : nat := size (positions s).

Definition has_position (t : string) (s : Portfolio) : bool :=
  bool_decide (is_Some (positions s !! t)).

(** [MAX_POSITIONS] is [int(INITIAL_BUDGET / POSITION_SIZE)]; the quotient
    1000.0 / 10.0 is the float 100.0, the integer computed above. *)
Definition can_open_position (s : Portfolio) : bool :=
  (POSITION_SIZE <=? cash s)%float
  && (Z.of_nat (open_count s) <? MAX_POSITIONS)%Z.

Definition open_long_position (t : string) (p : number) (s : Portfolio)
  : Py.result bool * Portfolio :=
  if negb (can_open_position s) then (Py.Return false, s)
  else if has_position t s then (Py.Return false, s)
  else
    match div POSITION_SIZE p with
    | Py.Raise e => (Py.Raise e, s)
    | Py.Return qty =>
        let sl := (value p * (1 + STOP_LOSS))%float in
        let tp := (value p * (1 + TAKE_PROFIT))%float in
        let position := mkPosition t LONG (value p) qty sl tp in
        let trade :=
          mkTrade t "BUY" (value p) qty 0
            "Price dropped 5% - buying opportunity" in
        (Py.Return true,
         {| cash := (cash s - POSITION_SIZE)%float;
            positions := <[t := position]> (positions s);
            trades := trades s ++ [trade] |})
    end.

Definition open_short_position (t : string) (p : number) (s : Portfolio)
  : Py.result bool * Portfolio :=
  if negb (can_open_position s) then (Py.Return false, s)
  else if has_position t s then (Py.Return false, s)
  else
    match div POSITION_SIZE p with
    | Py.Raise e => (Py.Raise e, s)
    | Py.Return qty =>
        let sl := (value p * (1 - STOP_LOSS))%float in
        let tp := (value p * (1 - TAKE_PROFIT))%float in
        let position := mkPosition t SHORT (value p) qty sl tp in
        let trade :=
          mkTrade t "SHORT" (value p) qty 0
            "Price jumped 10% - shorting opportunity" in
        (Py.Return true,
         {| cash := (cash s - POSITION_SIZE)%float;
            positions := <[t := position]> (positions s);
            trades := trades s ++ [trade] |})
    end.

Definition close_position (t : string) (current_price : float) (why : string)
    (s : Portfolio) : Py.result bool * Portfolio :=
  match positions s !! t with
  | None => (Py.Return false, s)
  | Some position =>
      let '(pl, act) :=
        match position_type position with
        | LONG =>
            (((current_price - entry_price position) * quantity position)%float,
             "SELL"%string)
        | SHORT =>
            (((entry_price position - current_price) * quantity position)%float,
             "COVER"%string)
        end in
      let trade :=
        mkTrade t act current_price (quantity position) pl why in
      (Py.Return true,
       {| cash := (cash s + (POSITION_SIZE + pl))%float;
          positions := delete t (positions s);
          trades := trades s ++ [trade] |})
  end.

(** The sum of the recorded [profit_loss] values, added one by one from 0.
    It is used below on the empty list and on a list with a single
    non-zero value, where every way of summing gives the same float. *)
Definition sum_profit_loss (l : list Trade) : float :=
  fold_left (fun acc t => (acc + profit_loss t)%float) l 0%float.

(** Calls of the mutating methods, and the states they reach. *)
Inductive call : Type :=
| OpenLong (t : string) (p : number)
| OpenShort (t : string) (p : number)
| Close (t : string) (p : float) (why : string).

Definition call_ticker (c : call) : string :=
  match c with
  | OpenLong t _ | OpenShort t _ | Close t _ _ => t
  end.

Definition exec (c : call) (s : Portfolio) : Py.result bool * Portfolio :=
  match c with
  | OpenLong t p => open_long_position t p s
  | OpenShort t p => open_short_position t p s
  | Close t p why => close_position t p why s
  end.

Definition after (c : call) (s : Portfolio) : Portfolio := snd (exec c s).

Definition run (cs : list call) (s : Portfolio) : Portfolio :=
  fold_left (fun s c => after c s) cs s.

Inductive reachable : Portfolio -> Prop :=
| reachable_initial : reachable initial_portfolio
| reachable_call c s : reachable s -> reachable (after c s).

Definition open_position (d : PositionType) :
    string -> number -> Portfolio -> Py.result bool * Portfolio :=
  match d with
  | LONG => open_long_position
  | SHORT => open_short_position
  end.

(** *** Vocabulary *)

(** The position and the trade an open in direction [d] builds from the
    price [p] and the quantity [qty] it has computed. *)
Definition new_position (d : PositionType) (t : string) (p qty : float)
    : Position :=
  mkPosition t d p qty
    (match d with
     | LONG => p * (1 + STOP_LOSS)
     | SHORT => p * (1 - STOP_LOSS)
     end)%float
    (match d with
     | LONG => p * (1 + TAKE_PROFIT)
     | SHORT => p * (1 - TAKE_PROFIT)
     end)%float.

Definition opening_trade (d : PositionType) (t : string) (p qty : float)
    : Trade :=
  mkTrade t
    (match d with LONG => "BUY" | SHORT => "SHORT" end)
    p qty 0
    (match d with
     | LONG => "Price dropped 5% - buying opportunity"
     | SHORT => "Price jumped 10% - shorting opportunity"
     end).

(** The profit or loss a close books for [pos] at the price [x], and the
    action it records. *)
Definition realized (pos : Position) (x : float) : float :=
  match position_type pos with
  | LONG => (x - entry_price pos) * quantity pos
  | SHORT => (entry_price pos - x) * quantity pos
  end%float.

Definition exit_action (pos : Position) : string :=
  match position_type pos with
  | LONG => "SELL"
  | SHORT => "COVER"
  end.

(** No call of [cs] names the ticker [t]. *)
Definition untouched (t : string) (cs : list call) : Prop :=
  Forall (fun c => call_ticker c <> t) cs.

Definition is_opening (tr : Trade) : Prop :=
  action tr = "BUY"%string \/ action tr = "SHORT"%string.

Definition is_closing (tr : Trade) : Prop :=
  action tr = "SELL"%string \/ action tr = "COVER"%string.

Definition openings (l : list Trade) : list Trade := filter is_opening l.
Definition closings (l : list Trade) : list Trade := filter is_closing l.

(** A count as a float: exact for every count below 2^53. *)
Fixpoint of_nat (n : nat) : float :=
  match n with
  | O => 0
  | S k => of_nat k + 1
  end%float.

(** The conservation equation, tested with the float comparison [==]. *)
Definition conserved (s : Portfolio) : bool :=
  (cash s + POSITION_SIZE * of_nat (open_count s)
   =? INITIAL_BUDGET + sum_profit_loss (trades s))%float.

(** The trade a close of [pos] at the price [x] records. *)
Definition closing_trade (pos : Position) (t : string) (x : float)
    (why : string) : Trade :=
  mkTrade t (exit_action pos) x (quantity pos) (realized pos x) why.

(** The one price on which [POSITION_SIZE / price] raises: a Python float
    that compares equal to zero. *)
Definition zero_py_float (p : number) : bool :=
  match p with
  | PyFloat y => (y =? 0)%float
  | NpFloat64 _ => false
  end.






(** The state after a LONG on "X" at 100 from the initial state. *)
Definition long_X : Portfolio :=
  after (OpenLong "X" (NpFloat64 100)) initial_portfolio.

(** A LONG on "X" bought at 13.3 and sold at 13.43, from the initial
    state. *)
Definition bought_and_sold : Portfolio :=
  run [OpenLong "X" (NpFloat64 13.3); Close "X" 13.43 "exit"]
    initial_portfolio.

(** A LONG on "X" at 100 sold at 103 while a LONG on "Y", bought at 50 in
    between, stays open. *)
Definition sold_beside_Y : Portfolio :=
  run [OpenLong "X" (NpFloat64 100); OpenLong "Y" (NpFloat64 50);
       Close "X" 103 "take profit reached"]
    initial_portfolio.

End F64.

(* ===================================================================== *)
(** ** Vocabulary of the statements *)
(* ===================================================================== *)

Global Instance Qlt_decision (x y : Q) : Decision (x < y).
Proof.
  destruct (Qlt_le_dec x y) as [H | H]; [left; exact H | right].
  apply Qle_not_lt, H.
Defined.

Global Instance Qeq_decision (x y : Q) : Decision (x == y) := Qeq_dec x y.

(** The open positions that carry the ticker [t]. *)
Definition held (t : string) (s : Portfolio) : list (string * Position) :=
  filter (fun kv => ticker kv.2 = t) (map_to_list (positions s)).

(** The take-profit level is reached, by direction. *)
Definition take_profit_hit (pos : Position) (p : Q) : Prop :=
  match position_type pos with
  | LONG => take_profit pos <= p
  | SHORT => p <= take_profit pos
  end.

(** The stop-loss level is reached, by direction. *)
Definition stop_loss_hit (pos : Position) (p : Q) : Prop :=
  match position_type pos with
  | LONG => p <= stop_loss pos
  | SHORT => stop_loss pos <= p
  end.

(** The price lies strictly between the two levels. *)
Definition strictly_between (pos : Position) (p : Q) : Prop :=
  match position_type pos with
  | LONG => stop_loss pos < p /\ p < take_profit pos
  | SHORT => take_profit pos < p /\ p < stop_loss pos
  end.

(** Sum of a list of numbers. *)
Definition Qsum (l : list Q) : Q := fold_right Qplus 0 l.

(** Trades that open a position, and trades that close one. *)
Definition is_opening (tr : Trade) : Prop :=
  action tr = "BUY"%string \/ action tr = "SHORT"%string.

Definition is_closing (tr : Trade) : Prop :=
  action tr = "SELL"%string \/ action tr = "COVER"%string.

(** The position and the trade record that an open in direction [d] on
    [t] at price [p] builds once its guards have passed. *)
Definition new_position (d : PositionType) (t : string) (p : Q) : Position :=
  mkPosition t d p (POSITION_SIZE / p)
    (match d with
     | LONG => p * (1 + STOP_LOSS)
     | SHORT => p * (1 - STOP_LOSS)
     end)
    (match d with
     | LONG => p * (1 + TAKE_PROFIT)
     | SHORT => p * (1 - TAKE_PROFIT)
     end).

Definition opening_trade (d : PositionType) (t : string) (p : Q) : Trade :=
  mkTrade t
    (match d with LONG => "BUY" | SHORT => "SHORT" end)
    p (POSITION_SIZE / p) 0
    (match d with
     | LONG => "Price dropped 5% - buying opportunity"
     | SHORT => "Price jumped 10% - shorting opportunity"
     end).

(** The state after a LONG on "X" at 100 from the initial state, and
    after a further SHORT on "Y" at 50. *)
Definition long_X : Portfolio := after (OpenLong "X" 100) initial_portfolio.
Definition long_X_short_Y : Portfolio := after (OpenShort "Y" 50) long_X.

(** [s'] comes from [s] by closing trades only. *)
Definition exits_only (s s' : Portfolio) : Prop :=
  exists closes,
    trades s' = trades s ++ closes /\ Forall is_closing closes.

(** [s'] comes from [s] by opening trades only, each on a ticker of
    [candidates]; the positions of [s] are all still there. *)
Definition entries_only (candidates : list string) (s s' : Portfolio) : Prop :=
  exists opens,
    trades s' = trades s ++ opens /\
    Forall is_opening opens /\
    Forall (fun tr => trade_ticker tr ∈ candidates) opens /\
    positions s ⊆ positions s'.

(** The new trades of a cycle contain both a closing and an opening trade
    on [t]. *)
Definition closed_and_reentered (before after : Portfolio) (t : string) : Prop :=
  exists new closing opening,
    trades after = trades before ++ new /\
    closing ∈ new /\ is_closing closing /\ trade_ticker closing = t /\
    opening ∈ new /\ is_opening opening /\ trade_ticker opening = t.

(** A market in which "X" trades at 94 after seven days at 100. *)
Definition falling_market : Collaborators unit :=
  {| get_sp500_companies := fun w => (["X"%string], w);
     get_stock_data := fun _ w =>
       ({[ "X"%string := [100; 100; 100; 100; 100; 100; 100; 94] ]}, w);
     get_current_price := fun _ w => (Some 94, w);
     save_portfolio := fun _ w => w |}.

(* ===================================================================== *)
(** ** trading_logic.py: the portfolio summary *)
(* ===================================================================== *)

(** The dictionary [get_portfolio_summary] returns. *)
Record Summary : Type := mkSummary {
  initial_budget : Q;
  current_value : Q;
  total_return : Q;
  summary_cash : Q;
  summary_active_positions : nat;
  summary_total_trades : nat;
  summary_profitable_trades : nat;
  summary_losing_trades : nat;
  summary_win_rate : Q;
  summary_total_profit : Q
}.

Section PortfolioSummary.
Context {World : Type} `{!Collaborators World}.

Local Notation "'do' x <- c ;; k" := (bind c (fun x => k))
  (at level 10, x name, c at level 99, k at level 200).

(** The loop of [get_portfolio_summary] that asks a price for every open
    position and keeps the ones that are there and not zero. *)
Fixpoint fetch_prices (keys : list string) (current_prices : gmap string Q)
    : M (gmap string Q) :=
  match keys with
  | [] => ret current_prices
  | t :: rest =>
      do price <- on_world (get_current_price t) ;;
      match price with
      | Some p =>
          if Py.truthy p
          then fetch_prices rest (<[t := p]> current_prices)
          else fetch_prices rest current_prices
      | None => fetch_prices rest current_prices
      end
  end.

Definition get_portfolio_summary : M Summary :=
  do s <- the_portfolio ;;
  let stats := get_statistics s in
  do current_prices <- fetch_prices (map_to_list (positions s)).*1 ∅ ;;
  let portfolio_value := get_portfolio_value current_prices s in
  do ratio <-
    (fun e => (Py.div (portfolio_value - INITIAL_BUDGET) INITIAL_BUDGET, e)) ;;
  ret {| initial_budget := INITIAL_BUDGET;
         current_value := portfolio_value;
         total_return := ratio;
         summary_cash := stat_cash stats;
         summary_active_positions := active_positions stats;
         summary_total_trades := total_trades stats;
         summary_profitable_trades := profitable_trades stats;
         summary_losing_trades := losing_trades stats;
         summary_win_rate := win_rate stats;
         summary_total_profit := total_profit stats |}.

End PortfolioSummary.

(* ===================================================================== *)
(** ** Vocabulary of the further statements *)
(* ===================================================================== *)

Global Instance PositionType_eq_dec : EqDecision PositionType.
Proof. solve_decision. Defined.

(** What the scan makes of one ticker: the body of its loop. *)
Definition entry_signal (stock_data : gmap string (list Q)) (s : Portfolio)
    (t : string) : option PositionType :=
  if has_position t s then None
  else
    match stock_data !! t with
    | None => None
    | Some data =>
        match calculate_price_change data LOOKBACK_DAYS with
        | None => None
        | Some price_change =>
            if np_ge price_change SHORT_TRIGGER then Some SHORT
            else if np_le price_change BUY_TRIGGER then Some LONG
            else None
        end
    end.

(** Under the quotes [quote], the exit checks have a reason to close the
    position on [t]: a price is there, is not zero, and
    [should_close_position] gives a reason at it. *)
Definition exit_due (quote : string -> option Q) (s : Portfolio) (t : string)
    : bool :=
  match quote t with
  | Some p => Py.truthy p && bool_decide (is_Some (should_close_position t p s))
  | None => false
  end.

(** The provider answers every price request from [quote], whatever the
    state of the world, and leaves the world as it is. *)
Definition quotes_from {World : Type} `{!Collaborators World}
    (quote : string -> option Q) : Prop :=
  forall t w, get_current_price t w = (quote t, w).

(** The quote of a ticker as the engine uses it: a missing quote and a
    quote of zero both count as no price. *)
Definition usable_quote (quote : string -> option Q) (t : string) : option Q :=
  match quote t with
  | Some p => if Py.truthy p then Some p else None
  | None => None
  end.

(** The action an opening trade records, by direction. *)
Definition entry_action (d : PositionType) : string :=
  match d with
  | LONG => "BUY"
  | SHORT => "SHORT"
  end.

(** [s'] comes from [s] by the opening trades [opens] and nothing else:
    each is on a candidate that had no position in [s] and has one in [s'],
    at a non-zero price and without profit or loss; no ticker is entered
    twice; the positions of [s] are all still there; the number of open
    positions has grown by the number of trades and the cash has dropped
    by as many budgets. *)
Definition entered (candidates : list string) (s s' : Portfolio)
    (opens : list Trade) : Prop :=
  trades s' = trades s ++ opens /\
  Forall (fun tr =>
            trade_ticker tr ∈ candidates /\
            profit_loss tr = 0 /\ ~ price tr == 0 /\
            positions s !! trade_ticker tr = None /\
            is_Some (positions s' !! trade_ticker tr)) opens /\
  NoDup (trade_ticker <$> opens) /\
  positions s ⊆ positions s' /\
  open_count s' = (open_count s + length opens)%nat /\
  cash s' == cash s - POSITION_SIZE * Py.of_nat (length opens).

(** The ledger call that an entry in direction [d] makes. *)
Definition entry_call (d : PositionType) (t : string) (p : Q) : call :=
  match d with
  | LONG => OpenLong t p
  | SHORT => OpenShort t p
  end.

(** Quotes with "X" at 94 and nothing else. *)
Definition only_X_at_94 (t : string) : option Q :=
  if String.eqb t "X" then Some 94 else None.

(** A market in which only "X" is quoted, at 94 after seven days at 100. *)
Definition market_of_X : Collaborators unit :=
  {| get_sp500_companies := fun w => (["X"%string], w);
     get_stock_data := fun _ w =>
       ({[ "X"%string := [100; 100; 100; 100; 100; 100; 100; 94] ]}, w);
     get_current_price := fun t w => (only_X_at_94 t, w);
     save_portfolio := fun _ w => w |}.

(** Opening and closing trades in a list. *)
Definition openings (l : list Trade) : list Trade := filter is_opening l.
Definition closings (l : list Trade) : list Trade := filter is_closing l.

(* ===================================================================== *)
(** ** Facts about Python values *)
(* ===================================================================== *)

Lemma py_ge_spec x y : Py.ge x y = true <-> y <= x.
Proof. apply Qle_bool_iff. Qed.

Lemma py_le_spec x y : Py.le x y = true <-> x <= y.
Proof. apply Qle_bool_iff. Qed.

Lemma py_ge_false x y : Py.ge x y = false <-> x < y.
Proof.
  unfold Py.ge. rewrite <- not_true_iff_false, Qle_bool_iff.
  split; [apply Qnot_le_lt | apply Qlt_not_le].
Qed.

Lemma py_le_false x y : Py.le x y = false <-> y < x.
Proof. apply py_ge_false. Qed.

Lemma py_gt_spec x y : Py.gt x y = true <-> y < x.
Proof. unfold Py.gt. rewrite negb_true_iff. apply py_le_false. Qed.

Lemma py_lt_spec x y : Py.lt x y = true <-> x < y.
Proof. apply py_gt_spec. Qed.

Lemma py_truthy_spec x : Py.truthy x = true <-> ~ x == 0.
Proof.
  unfold Py.truthy.
  rewrite negb_true_iff, <- not_true_iff_false, Qeq_bool_iff. tauto.
Qed.

Lemma py_div_nonzero x y : ~ y == 0 -> Py.div x y = Py.Return (x / y).
Proof.
  intros Hy. unfold Py.div.
  destruct (Qeq_bool y 0) eqn:E; [|reflexivity].
  apply Qeq_bool_iff in E. contradiction.
Qed.

Lemma py_div_zero x y : y == 0 -> Py.div x y = Py.Raise Py.ZeroDivisionError.
Proof. intros Hy. unfold Py.div. apply Qeq_bool_iff in Hy. now rewrite Hy. Qed.

Lemma py_of_nat_S n : Py.of_nat (S n) == Py.of_nat n + 1.
Proof.
  unfold Py.of_nat. rewrite Nat2Z.inj_succ, <- Z.add_1_r, inject_Z_plus.
  reflexivity.
Qed.

(* ===================================================================== *)
(** ** Facts about the ledger operations *)
(* ===================================================================== *)

Lemma has_position_true t s : has_position t s = true <-> is_Some (positions s !! t).
Proof. unfold has_position. apply bool_decide_eq_true. Qed.

Lemma has_position_false t s : has_position t s = false <-> positions s !! t = None.
Proof.
  unfold has_position. rewrite bool_decide_eq_false, eq_None_not_Some. tauto.
Qed.

(** An open that goes through, in either direction. *)
Lemma open_position_success d t p s :
  can_open_position s = true -> positions s !! t = None -> ~ p == 0 ->
  open_position d t p s =
    (Py.Return true,
     {| cash := cash s - POSITION_SIZE;
        positions := <[t := new_position d t p]> (positions s);
        trades := trades s ++ [opening_trade d t p] |}).
Proof.
  intros Hcan Hfree Hp. apply has_position_false in Hfree.
  destruct d; simpl; unfold open_long_position, open_short_position;
    rewrite Hcan, Hfree, (py_div_nonzero _ _ Hp); reflexivity.
Qed.

(** Every open either goes through, under the three conditions above, or
    leaves the state as it was. *)
Lemma open_position_cases d t p s r s' :
  open_position d t p s = (r, s') ->
  (r = Py.Return true /\ can_open_position s = true /\
   positions s !! t = None /\ ~ p == 0)
  \/ (r <> Py.Return true /\ s' = s).
Proof.
  intros H.
  destruct (can_open_position s) eqn:Hcan.
  - destruct (has_position t s) eqn:Hhas.
    + right. destruct d; simpl in H;
        unfold open_long_position, open_short_position in H;
        rewrite Hcan, Hhas in H; simpl in H; inversion H; split; congruence.
    + apply has_position_false in Hhas.
      destruct (Qeq_dec p 0) as [Hz | Hnz].
      * right. apply has_position_false in Hhas.
        destruct d; simpl in H;
          unfold open_long_position, open_short_position in H;
          rewrite Hcan, Hhas, (py_div_zero _ _ Hz) in H; simpl in H;
          inversion H; split; congruence.
      * left. rewrite (open_position_success d t p s Hcan Hhas Hnz) in H.
        inversion H. auto.
  - right. destruct d; simpl in H;
      unfold open_long_position, open_short_position in H;
      rewrite Hcan in H; simpl in H; inversion H; split; congruence.
Qed.

Lemma close_position_success t x why s pos :
  positions s !! t = Some pos ->
  close_position t x why s =
    (Py.Return true,
     {| cash :=
          cash s +
          (POSITION_SIZE +
           match position_type pos with
           | LONG => (x - entry_price pos) * quantity pos
           | SHORT => (entry_price pos - x) * quantity pos
           end);
        positions := delete t (positions s);
        trades :=
          trades s ++
          [mkTrade t
             (match position_type pos with LONG => "SELL" | SHORT => "COVER" end)
             x (quantity pos)
             (match position_type pos with
              | LONG => (x - entry_price pos) * quantity pos
              | SHORT => (entry_price pos - x) * quantity pos
              end)
             why] |}).
Proof.
  intros Hpos. unfold close_position. rewrite Hpos.
  destruct (position_type pos); reflexivity.
Qed.

Lemma close_position_absent t x why s :
  positions s !! t = None -> close_position t x why s = (Py.Return false, s).
Proof. intros Hpos. unfold close_position. now rewrite Hpos. Qed.

(** The three things a call can do to the ledger: nothing, add a fresh
    position against the per-position budget, or remove one and book its
    profit or loss. *)
Lemma after_cases c s :
  after c s = s
  \/ (exists pos tr,
        can_open_position s = true /\
        positions s !! call_ticker c = None /\
        ticker pos = call_ticker c /\
        trade_ticker tr = call_ticker c /\
        profit_loss tr = 0 /\ is_opening tr /\
        after c s =
          {| cash := cash s - POSITION_SIZE;
             positions := <[call_ticker c := pos]> (positions s);
             trades := trades s ++ [tr] |})
  \/ (exists pos tr,
        positions s !! call_ticker c = Some pos /\
        trade_ticker tr = call_ticker c /\
        is_closing tr /\
        after c s =
          {| cash := cash s + (POSITION_SIZE + profit_loss tr);
             positions := delete (call_ticker c) (positions s);
             trades := trades s ++ [tr] |}).
Proof.
  assert (Hopen : forall d t p,
    snd (open_position d t p s) = s
    \/ (exists pos tr,
          can_open_position s = true /\ positions s !! t = None /\
          ticker pos = t /\ trade_ticker tr = t /\
          profit_loss tr = 0 /\ is_opening tr /\
          snd (open_position d t p s) =
            {| cash := cash s - POSITION_SIZE;
               positions := <[t := pos]> (positions s);
               trades := trades s ++ [tr] |})).
  { intros d t p. destruct (open_position d t p s) as [r s'] eqn:E.
    destruct (open_position_cases _ _ _ _ _ _ E)
      as [(-> & Hcan & Hfree & Hp) | (_ & ->)]; [right | now left].
    rewrite (open_position_success d t p s Hcan Hfree Hp) in E.
    inversion E; subst. simpl.
    refine (ex_intro _ _ (ex_intro _ _
              (conj Hcan (conj Hfree
                 (conj _ (conj _ (conj _ (conj _ eq_refl)))))))); simpl;
      try reflexivity.
    destruct d; [left | right]; reflexivity. }
  unfold after. destruct c as [t p | t p | t p why]; simpl.
  - destruct (Hopen LONG t p) as [H | H]; [now left | right; left; exact H].
  - destruct (Hopen SHORT t p) as [H | H]; [now left | right; left; exact H].
  - destruct (positions s !! t) as [pos |] eqn:Hpos.
    + right; right. rewrite (close_position_success _ _ _ _ _ Hpos). simpl.
      exists pos. eexists (mkTrade t _ p (quantity pos) _ why).
      split; [reflexivity |]. split; [reflexivity |].
      split; [| reflexivity].
      destruct (position_type pos); [left | right]; reflexivity.
    + left. now rewrite (close_position_absent _ _ _ _ Hpos).
Qed.

(** In reachable states a position is filed under its own ticker. *)
Lemma reachable_keys s :
  reachable s -> forall t pos, positions s !! t = Some pos -> ticker pos = t.
Proof.
  induction 1 as [| c s _ IH]; intros t pos.
  - simpl. now rewrite lookup_empty.
  - destruct (after_cases c s)
      as [-> | [(pos' & tr & _ & _ & Htk & _ & _ & _ & ->)
               | (pos' & tr & _ & _ & _ & ->)]]; simpl.
    + apply IH.
    + destruct (decide (call_ticker c = t)) as [<- | Hne].
      * rewrite lookup_insert_eq. congruence.
      * rewrite lookup_insert_ne by exact Hne. apply IH.
    + destruct (decide (call_ticker c = t)) as [<- | Hne].
      * now rewrite lookup_delete_eq.
      * rewrite lookup_delete_ne by exact Hne. apply IH.
Qed.

(** A duplicate-free list whose members all equal [x] has at most one. *)
Lemma NoDup_all_equal {A : Type} (x : A) (l : list A) :
  NoDup l -> (forall y, y ∈ l -> y = x) -> (length l <= 1)%nat.
Proof.
  intros Hnd Hall. destruct l as [| a [| b l]]; simpl; try lia.
  exfalso. apply NoDup_cons in Hnd as [Hnotin _].
  apply Hnotin. rewrite (Hall a), (Hall b); [left | right; left | left].
Qed.

Lemma open_count_after c s :
  (Z.of_nat (open_count s) <= MAX_POSITIONS)%Z ->
  (Z.of_nat (open_count (after c s)) <= MAX_POSITIONS)%Z.
Proof.
  intros Hle.
  destruct (after_cases c s)
    as [-> | [(pos & tr & Hcan & Hfree & _ & _ & _ & _ & ->)
             | (pos & tr & Hpos & _ & _ & ->)]];
    unfold open_count in *; simpl.
  - exact Hle.
  - rewrite (map_size_insert_None _ _ _ Hfree).
    unfold can_open_position, open_count in Hcan.
    apply andb_true_iff in Hcan as [_ Hlt]. apply Z.ltb_lt in Hlt. lia.
  - rewrite map_size_delete_Some by (rewrite Hpos; eauto). lia.
Qed.

(* ===================================================================== *)
(** ** One position per ticker *)
(* ===================================================================== *)

(** C2.  Whatever the state, opening a LONG or a SHORT on a ticker that
    already has a position returns [False] and leaves the whole state
    (cash, positions, trades) as it was.  Consequently, in every state
    reachable from the initial one, at most one open position carries a
    given ticker. *)
Theorem open_on_held_ticker_fails :
  (forall s t p,
      is_Some (positions s !! t) ->
      open_long_position t p s = (Py.Return false, s) /\
      open_short_position t p s = (Py.Return false, s))
  /\ (forall s, reachable s -> forall t, (length (held t s) <= 1)%nat).
Proof.
  split.
  - intros s t p Hsome. apply has_position_true in Hsome.
    unfold open_long_position, open_short_position. rewrite Hsome.
    destruct (can_open_position s); simpl; split; reflexivity.
  - intros s Hreach t. unfold held.
    destruct (positions s !! t) as [pos |] eqn:Hpos.
    + apply (NoDup_all_equal (t, pos)).
      * apply NoDup_filter, NoDup_map_to_list.
      * intros [k v] Hin. apply list_elem_of_filter in Hin as [Htk Hin].
        simpl in Htk. apply elem_of_map_to_list in Hin.
        pose proof (reachable_keys s Hreach k v Hin) as Hk.
        assert (k = t) by congruence. subst k. congruence.
    + destruct (filter _ _) as [| [k v] l] eqn:E; simpl; [lia |].
      exfalso.
      assert (Hin : (k, v) ∈ filter (fun kv : string * Position => ticker kv.2 = t)
                       (map_to_list (positions s))) by (rewrite E; left).
      apply list_elem_of_filter in Hin as [Htk Hin]. simpl in Htk.
      apply elem_of_map_to_list in Hin.
      pose proof (reachable_keys s Hreach k v Hin) as Hk. congruence.
Qed.

Lemma open_on_held_ticker_fails_witness :
  (open_long_position "X" 50 long_X = (Py.Return false, long_X) /\
   open_short_position "X" 50 long_X = (Py.Return false, long_X))
  /\ (length (held "X" long_X) <= 1)%nat.
Proof.
  split.
  - apply (proj1 open_on_held_ticker_fails long_X "X"%string 50).
    vm_compute. eauto.
  - apply (proj2 open_on_held_ticker_fails long_X).
    apply reachable_call, reachable_initial.
Defined.

(* ===================================================================== *)
(** ** Capacity *)
(* ===================================================================== *)

(** C3.  [can_open_position] is true exactly when the cash covers
    [POSITION_SIZE] and fewer than [MAX_POSITIONS] positions are open; and
    from a state with at most [MAX_POSITIONS] open positions, no sequence
    of opens and closes reaches a state with more. *)
Theorem can_open_position_capacity :
  (forall s,
      can_open_position s = true <->
      POSITION_SIZE <= cash s /\
      (Z.of_nat (open_count s) < MAX_POSITIONS)%Z)
  /\ (forall cs s,
        (Z.of_nat (open_count s) <= MAX_POSITIONS)%Z ->
        (Z.of_nat (open_count (run cs s)) <= MAX_POSITIONS)%Z).
Proof.
  split.
  - intros s. unfold can_open_position.
    rewrite andb_true_iff, py_ge_spec, Z.ltb_lt. reflexivity.
  - intros cs. induction cs as [| c cs IH]; intros s Hle; simpl.
    + exact Hle.
    + apply IH, open_count_after, Hle.
Qed.

Lemma can_open_position_capacity_witness :
  (Z.of_nat (open_count (run [OpenLong "X" 100; OpenShort "Y" 50;
                               Close "X" 103 "Take profit reached"]
                              initial_portfolio)) <= MAX_POSITIONS)%Z.
Proof.
  apply (proj2 can_open_position_capacity). vm_compute. discriminate.
Defined.

(* ===================================================================== *)
(** ** Exit triggers *)
(* ===================================================================== *)

(** Closes a goal about the outcome of the two threshold tests, given
    how the price compares with the levels. *)
Ltac settle_order :=
  first [ reflexivity | discriminate | lra | exfalso; lra ].

(** C4.  For an open position and a current price, [should_close_position]
    gives the take-profit reason exactly when the take-profit level is
    reached (LONG: price >= take_profit; SHORT: price <= take_profit),
    otherwise the stop-loss reason exactly when the stop-loss level is
    reached (LONG: price <= stop_loss; SHORT: price >= stop_loss), otherwise
    nothing.  Take-profit is tested first, so it wins when both levels are
    reached, and a price strictly between the two levels gives nothing. *)
Theorem should_close_position_spec s t pos p :
  positions s !! t = Some pos ->
  (should_close_position t p s = Some TAKE_PROFIT_REACHED
     <-> take_profit_hit pos p)
  /\ (should_close_position t p s = Some STOP_LOSS_TRIGGERED
        <-> ~ take_profit_hit pos p /\ stop_loss_hit pos p)
  /\ (should_close_position t p s = None
        <-> ~ take_profit_hit pos p /\ ~ stop_loss_hit pos p)
  /\ (take_profit_hit pos p -> stop_loss_hit pos p ->
        should_close_position t p s = Some TAKE_PROFIT_REACHED)
  /\ (strictly_between pos p -> should_close_position t p s = None).
Proof.
  intros Hpos.
  unfold should_close_position, take_profit_hit, stop_loss_hit,
    strictly_between.
  rewrite Hpos.
  destruct (position_type pos).
  - destruct (Py.ge p (take_profit pos)) eqn:Htp;
      [apply py_ge_spec in Htp | apply py_ge_false in Htp];
      [| destruct (Py.le p (stop_loss pos)) eqn:Hsl;
         [apply py_le_spec in Hsl | apply py_le_false in Hsl]];
      repeat split; intros; settle_order.
  - destruct (Py.le p (take_profit pos)) eqn:Htp;
      [apply py_le_spec in Htp | apply py_le_false in Htp];
      [| destruct (Py.ge p (stop_loss pos)) eqn:Hsl;
         [apply py_ge_spec in Hsl | apply py_ge_false in Hsl]];
      repeat split; intros; settle_order.
Qed.

Lemma should_close_position_spec_witness :
  should_close_position "X" 104 long_X = Some TAKE_PROFIT_REACHED
  /\ should_close_position "X" 101 long_X = None.
Proof.
  assert (Hpos : positions long_X !! "X"%string
                 = Some (mkPosition "X" LONG 100 (10 / 100)
                           (100 * (1 + STOP_LOSS)) (100 * (1 + TAKE_PROFIT))))
    by (vm_compute; reflexivity).
  split.
  - apply (proj1 (should_close_position_spec long_X "X"%string _ 104 Hpos)).
    vm_compute. discriminate.
  - apply (proj2 (proj2 (proj2 (proj2
             (should_close_position_spec long_X "X"%string _ 101 Hpos))))).
    vm_compute. split; reflexivity.
Defined.

(* ===================================================================== *)
(** ** Statistics *)
(* ===================================================================== *)

(** Counting with a boolean test is counting with the property it decides. *)
Lemma length_filter_bool {A : Type} (f : A -> bool) (P : A -> Prop)
    `{!forall x, Decision (P x)} (l : list A) :
  (forall x, f x = true <-> P x) ->
  length (List.filter f l) = length (filter P l).
Proof.
  intros Hf. induction l as [| a l IH]; [reflexivity |].
  rewrite filter_cons. simpl.
  destruct (f a) eqn:Efa; destruct (decide (P a)) as [HP | HP]; simpl.
  - now rewrite IH.
  - apply Hf in Efa. contradiction.
  - apply Hf in HP. congruence.
  - exact IH.
Qed.

(** Every trade falls in exactly one of three buckets. *)
Lemma three_buckets (l : list Trade) :
  length l =
  (length (filter (fun t => (0 < profit_loss t)%Q) l)
   + length (filter (fun t => (profit_loss t < 0)%Q) l)
   + length (filter (fun t => (profit_loss t == 0)%Q) l))%nat.
Proof.
  induction l as [| a l IH]; [reflexivity |].
  rewrite !filter_cons. simpl.
  destruct (decide (0 < profit_loss a)) as [Hp | Hp];
    destruct (decide (profit_loss a < 0)) as [Hn | Hn];
    destruct (decide (profit_loss a == 0)) as [Hz | Hz];
    simpl; try lia; exfalso; lra.
Qed.

(** C7.  [get_statistics] reports as [total_trades] the length of the whole
    trade list, as [profitable_trades] the number of trades with
    profit_loss > 0, as [losing_trades] the number with profit_loss < 0, so
    that the trades with profit_loss = 0 count in the total and in neither
    bucket; [win_rate] is profitable_trades / total_trades when there is a
    trade and 0 when there is none. *)
Theorem get_statistics_counts (s : Portfolio) :
  total_trades (get_statistics s) = length (trades s)
  /\ profitable_trades (get_statistics s)
     = length (filter (fun t => 0 < profit_loss t) (trades s))
  /\ losing_trades (get_statistics s)
     = length (filter (fun t => profit_loss t < 0) (trades s))
  /\ total_trades (get_statistics s)
     = (profitable_trades (get_statistics s)
        + losing_trades (get_statistics s)
        + length (filter (fun t => (profit_loss t == 0)%Q) (trades s)))%nat
  /\ ((0 < total_trades (get_statistics s))%nat ->
      win_rate (get_statistics s)
      = Py.of_nat (profitable_trades (get_statistics s))
        / Py.of_nat (total_trades (get_statistics s)))
  /\ (total_trades (get_statistics s) = 0%nat ->
      win_rate (get_statistics s) = 0).
Proof.
  assert (Hprof : profitable_trades (get_statistics s)
                  = length (filter (fun t => 0 < profit_loss t) (trades s))).
  { simpl. apply length_filter_bool. intros t. apply py_gt_spec. }
  assert (Hlose : losing_trades (get_statistics s)
                  = length (filter (fun t => profit_loss t < 0) (trades s))).
  { simpl. apply length_filter_bool. intros t. apply py_lt_spec. }
  split; [reflexivity |].
  split; [exact Hprof |].
  split; [exact Hlose |].
  split; [rewrite Hprof, Hlose; apply three_buckets |].
  split.
  - simpl. intros Hpos. apply Nat.ltb_lt in Hpos. now rewrite Hpos.
  - simpl. intros Hzero. now rewrite Hzero.
Qed.

Lemma get_statistics_counts_witness :
  win_rate (get_statistics (after (Close "X" 103 "Take profit reached") long_X))
  = Py.of_nat
      (profitable_trades
         (get_statistics (after (Close "X" 103 "Take profit reached") long_X)))
    / Py.of_nat
        (total_trades
           (get_statistics (after (Close "X" 103 "Take profit reached") long_X)))
  /\ win_rate (get_statistics initial_portfolio) = 0.
Proof.
  split.
  - apply (get_statistics_counts
             (after (Close "X" 103 "Take profit reached") long_X)).
    vm_compute. lia.
  - apply (get_statistics_counts initial_portfolio). reflexivity.
Defined.

(* ===================================================================== *)
(** ** Mark to market *)
(* ===================================================================== *)

Lemma foldr_add_Qsum {K A : Type} (v : K -> A -> Q) (b : Q) (l : list (K * A)) :
  foldr (uncurry (fun k a acc => acc + v k a)) b l
  == b + Qsum (map (fun kv => v kv.1 kv.2) l).
Proof.
  induction l as [| [k a] l IH]; simpl.
  - ring.
  - rewrite IH. ring.
Qed.

(** C8.  [get_portfolio_value] is the cash plus one term per open position:
    current_price * quantity for a LONG with a price, the per-position
    budget + (entry_price - current_price) * quantity for a SHORT with a
    price, and the per-position budget alone when the ticker has no price
    in the mapping.  The function is total: a missing price never makes it
    fail. *)
Theorem get_portfolio_value_spec (current_prices : gmap string Q) (s : Portfolio) :
  get_portfolio_value current_prices s
  == cash s
     + Qsum (map (fun kv => position_value current_prices kv.1 kv.2)
               (map_to_list (positions s)))
  /\ (forall t pos,
        (forall current_price,
            current_prices !! t = Some current_price ->
            position_type pos = LONG ->
            position_value current_prices t pos
            = current_price * quantity pos)
        /\ (forall current_price,
              current_prices !! t = Some current_price ->
              position_type pos = SHORT ->
              position_value current_prices t pos
              = POSITION_SIZE + (entry_price pos - current_price) * quantity pos)
        /\ (current_prices !! t = None ->
            position_value current_prices t pos = POSITION_SIZE)).
Proof.
  split.
  - unfold get_portfolio_value. rewrite map_fold_foldr.
    apply (foldr_add_Qsum (position_value current_prices)).
  - intros t pos. unfold position_value.
    repeat split; intros; repeat
      match goal with
      | H : _ !! _ = _ |- _ => rewrite H; clear H
      | H : position_type _ = _ |- _ => rewrite H; clear H
      end; reflexivity.
Qed.

Lemma get_portfolio_value_spec_witness :
  position_value {[ "X"%string := 101 ]} "X"
    (mkPosition "X" LONG 100 (10 / 100) 95 103) = 101 * (10 / 100)
  /\ position_value {[ "X"%string := 101 ]} "Y"
       (mkPosition "Y" SHORT 50 (10 / 50) (105 / 2) (97 / 2)) = POSITION_SIZE.
Proof.
  split.
  - apply (proj2 (get_portfolio_value_spec {[ "X"%string := 101 ]} long_X_short_Y)
             "X"%string (mkPosition "X" LONG 100 (10 / 100) 95 103));
      reflexivity.
  - apply (proj2 (get_portfolio_value_spec {[ "X"%string := 101 ]} long_X_short_Y)
             "Y"%string (mkPosition "Y" SHORT 50 (10 / 50) (105 / 2) (97 / 2))).
    reflexivity.
Defined.

(* ===================================================================== *)
(** ** Sizes *)
(* ===================================================================== *)

Lemma size_delete_Some {A : Type} (m : gmap string A) t x :
  m !! t = Some x -> size m = S (size (delete t m)).
Proof.
  intros Hx.
  rewrite <- (map_size_insert_None t x (delete t m)) by apply lookup_delete_eq.
  now rewrite insert_delete_eq, insert_id.
Qed.

(* ===================================================================== *)
(** ** The trading cycle *)
(* ===================================================================== *)

Lemma exits_only_refl s : exits_only s s.
Proof. exists []. split; [now rewrite app_nil_r | constructor]. Qed.

Lemma exits_only_trans s1 s2 s3 :
  exits_only s1 s2 -> exits_only s2 s3 -> exits_only s1 s3.
Proof.
  intros (c1 & H1 & F1) (c2 & H2 & F2). exists (c1 ++ c2). split.
  - now rewrite H2, H1, app_assoc.
  - now apply Forall_app.
Qed.

Lemma entries_only_refl cands s : entries_only cands s s.
Proof.
  exists []. split; [now rewrite app_nil_r |].
  split; [constructor |]. split; [constructor | reflexivity].
Qed.

Lemma entries_only_trans cands s1 s2 s3 :
  entries_only cands s1 s2 -> entries_only cands s2 s3 ->
  entries_only cands s1 s3.
Proof.
  intros (o1 & H1 & F1 & G1 & S1) (o2 & H2 & F2 & G2 & S2).
  exists (o1 ++ o2). repeat split.
  - now rewrite H2, H1, app_assoc.
  - now apply Forall_app.
  - now apply Forall_app.
  - now transitivity (positions s2).
Qed.

Lemma entries_only_weaken cands cands' s s' :
  cands ⊆ cands' -> entries_only cands s s' -> entries_only cands' s s'.
Proof.
  intros Hsub (o & H & F & G & S). exists o. repeat split; try assumption.
  eapply Forall_impl; [exact G |]. intros tr Hin. now apply Hsub.
Qed.

(** A close is an exit or nothing. *)
Lemma close_position_exits t p why s :
  exists b, fst (close_position t p why s) = Py.Return b
            /\ exits_only s (snd (close_position t p why s)).
Proof.
  destruct (positions s !! t) as [pos |] eqn:Hpos.
  - rewrite (close_position_success _ _ _ _ _ Hpos). simpl.
    exists true. split; [reflexivity |].
    eexists. split; [reflexivity |].
    constructor; [| constructor].
    destruct (position_type pos); [left | right]; reflexivity.
  - rewrite (close_position_absent _ _ _ _ Hpos). simpl.
    exists false. split; [reflexivity | apply exits_only_refl].
Qed.

(** An open is an entry on its ticker or nothing. *)
Lemma open_position_entries d t p s :
  entries_only [t] s (snd (open_position d t p s)).
Proof.
  destruct (open_position d t p s) as [r s'] eqn:E.
  destruct (open_position_cases _ _ _ _ _ _ E)
    as [(-> & Hcan & Hfree & Hp) | (_ & ->)]; simpl.
  - rewrite (open_position_success d t p s Hcan Hfree Hp) in E.
    injection E as <-.
    exists [opening_trade d t p]. simpl. repeat split.
    + constructor; [| constructor]. destruct d; [left | right]; reflexivity.
    + constructor; [| constructor]. simpl. apply list_elem_of_singleton.
      reflexivity.
    + now apply insert_subseteq.
  - apply entries_only_refl.
Qed.

(** An open at a non-zero price returns. *)
Lemma open_position_returns d t p s :
  ~ p == 0 -> exists b, fst (open_position d t p s) = Py.Return b.
Proof.
  intros Hp.
  destruct d; simpl; unfold open_long_position, open_short_position;
    destruct (can_open_position s); simpl; eauto;
    destruct (has_position t s); simpl; eauto;
    rewrite (py_div_nonzero _ _ Hp); simpl; eauto.
Qed.

Section Cycle.
Context {World : Type} `{!Collaborators World}.

Implicit Types e : Engine World.

Lemma close_all_exits l e :
  exists e',
    close_all l e = (Py.Return tt, e') /\
    exits_only (portfolio e) (portfolio e').
Proof.
  revert e. induction l as [| [[t p] why] l IH]; intros e; simpl.
  - exists e. split; [reflexivity | apply exits_only_refl].
  - unfold bind, on_portfolio.
    destruct (close_position_exits t p why (portfolio e)) as (b & Hb & Hex).
    destruct (close_position t p why (portfolio e)) as [r s'].
    simpl in Hb, Hex. subst r.
    destruct (IH (mkEngine s' (world e))) as (e' & He' & Hex').
    exists e'. split; [exact He' |].
    eapply exits_only_trans; [exact Hex | exact Hex'].
Qed.

Lemma collect_exits_reads keys acc e :
  exists r e',
    collect_exits keys acc e = (Py.Return r, e') /\
    portfolio e' = portfolio e.
Proof.
  revert acc e. induction keys as [| t keys IH]; intros acc e; simpl.
  - exists acc, e. split; reflexivity.
  - unfold bind, on_world, the_portfolio.
    destruct (get_current_price t (world e)) as [cp w].
    assert (Hgo : forall acc',
      exists r e',
        collect_exits keys acc' (mkEngine (portfolio e) w)
        = (Py.Return r, e') /\ portfolio e' = portfolio e).
    { intros acc'. apply (IH acc' (mkEngine (portfolio e) w)). }
    destruct cp as [p |]; [| apply Hgo].
    destruct (Py.truthy p); [| apply Hgo]. simpl.
    destruct (should_close_position t p (portfolio e)) as [why |];
      [| apply Hgo].
    destruct (negb (String.eqb why "")); apply Hgo.
Qed.

Lemma check_exit_conditions_exits e :
  exists e',
    check_exit_conditions e = (Py.Return tt, e') /\
    exits_only (portfolio e) (portfolio e').
Proof.
  unfold check_exit_conditions, bind, the_portfolio.
  destruct (collect_exits_reads (map_to_list (positions (portfolio e))).*1 [] e)
    as (r & e1 & Hr & Hsame).
  rewrite Hr.
  destruct (close_all_exits r e1) as (e' & He' & Hex).
  exists e'. split; [exact He' |]. now rewrite <- Hsame.
Qed.

Lemma scan_loop_free stock_data s tickers long short :
  Forall (fun t => positions s !! t = None) long ->
  Forall (fun t => positions s !! t = None) short ->
  Forall (fun t => positions s !! t = None)
    ((scan_loop stock_data s tickers long short).1
     ++ (scan_loop stock_data s tickers long short).2).
Proof.
  revert long short.
  induction tickers as [| t tickers IH]; intros long short Hl Hs; simpl.
  - now apply Forall_app.
  - destruct (has_position t s) eqn:Hhas; [now apply IH |].
    apply has_position_false in Hhas.
    destruct (stock_data !! t) as [data |]; [| now apply IH].
    destruct (calculate_price_change data LOOKBACK_DAYS) as [change |];
      [| now apply IH].
    destruct (np_ge change SHORT_TRIGGER).
    + apply IH; [exact Hl |].
      apply Forall_app. split; [exact Hs | now constructor].
    + destruct (np_le change BUY_TRIGGER); [| now apply IH].
      apply IH; [| exact Hs].
      apply Forall_app. split; [exact Hl | now constructor].
Qed.

Lemma scan_for_opportunities_reads tickers e :
  exists c e',
    scan_for_opportunities tickers e = (Py.Return c, e') /\
    portfolio e' = portfolio e /\
    Forall (fun t => positions (portfolio e) !! t = None) (c.1 ++ c.2).
Proof.
  unfold scan_for_opportunities, bind, on_world, the_portfolio, ret.
  destruct (get_stock_data tickers (world e)) as [stock_data w]. simpl.
  eexists; eexists. split; [reflexivity |]. split; [reflexivity |].
  apply scan_loop_free; constructor.
Qed.

Lemma execute_loop_entries d candidates e :
  fst (execute_loop (open_position d) candidates e) = Py.Return tt /\
  entries_only candidates (portfolio e)
    (portfolio (snd (execute_loop (open_position d) candidates e))).
Proof.
  revert e. induction candidates as [| t rest IH]; intros e; simpl.
  - split; [reflexivity | apply entries_only_refl].
  - unfold bind, the_portfolio, on_world, on_portfolio.
    destruct (can_open_position (portfolio e)); simpl;
      [| split; [reflexivity | apply entries_only_refl]].
    destruct (get_current_price t (world e)) as [cp w].
    assert (Hskip :
      fst (execute_loop (open_position d) rest (mkEngine (portfolio e) w))
      = Py.Return tt /\
      entries_only (t :: rest) (portfolio e)
        (portfolio
           (snd (execute_loop (open_position d) rest
                   (mkEngine (portfolio e) w))))).
    { destruct (IH (mkEngine (portfolio e) w)) as [Hret Hent].
      split; [exact Hret |].
      eapply entries_only_weaken; [| exact Hent].
      intros x Hx. now right. }
    destruct cp as [p |]; [| exact Hskip].
    destruct (Py.truthy p) eqn:Htruthy; [| exact Hskip].
    apply py_truthy_spec in Htruthy. simpl.
    destruct (open_position_returns d t p (portfolio e) Htruthy) as [b Hb].
    pose proof (open_position_entries d t p (portfolio e)) as Hopen.
    destruct (open_position d t p (portfolio e)) as [r s'].
    simpl in Hb, Hopen. subst r.
    destruct (IH (mkEngine s' w)) as [Hret Hent]. simpl in Hent.
    split; [exact Hret |].
    eapply entries_only_trans.
    + eapply entries_only_weaken; [| exact Hopen].
      intros x Hx. apply list_elem_of_singleton in Hx. subst x. now left.
    + eapply entries_only_weaken; [| exact Hent].
      intros x Hx. now right.
Qed.

Lemma execute_trades_entries long short e :
  fst (execute_trades long short e) = Py.Return tt /\
  entries_only (long ++ short) (portfolio e)
    (portfolio (snd (execute_trades long short e))).
Proof.
  unfold execute_trades, bind.
  destruct (execute_loop_entries LONG long e) as [Hret1 Hent1].
  simpl in Hret1, Hent1.
  destruct (execute_loop open_long_position long e) as [r e1].
  simpl in Hret1, Hent1. subst r.
  destruct (execute_loop_entries SHORT short e1) as [Hret2 Hent2].
  simpl in Hret2, Hent2. split; [exact Hret2 |].
  eapply entries_only_trans.
  - eapply entries_only_weaken; [| exact Hent1].
    intros x Hx. apply elem_of_app. now left.
  - eapply entries_only_weaken; [| exact Hent2].
    intros x Hx. apply elem_of_app. now right.
Qed.

End Cycle.

(** C9 as stated fails: with a LONG on "X" entered at 100 and "X" now at
    94 after a week at 100, one cycle sells "X" on its stop-loss (94 <= 95)
    and, the ticker being free again and its price change being -6%, buys
    it back at 94. *)
Lemma cycle_reentry_counterexample :
  exists sell buy,
    trades (portfolio (@run_trading_cycle unit falling_market
                         (mkEngine long_X tt)))
    = trades long_X ++ [sell; buy] /\
    trade_ticker sell = "X"%string /\ action sell = "SELL"%string /\
    reason sell = STOP_LOSS_TRIGGERED /\
    trade_ticker buy = "X"%string /\ action buy = "BUY"%string /\
    closed_and_reentered long_X
      (portfolio (@run_trading_cycle unit falling_market (mkEngine long_X tt)))
      "X".
Proof.
  eexists; eexists.
  split; [vm_compute; reflexivity |].
  repeat (split; [reflexivity |]).
  eexists; eexists; eexists.
  split; [vm_compute; reflexivity |].
  split; [left |].
  split; [left; reflexivity |].
  split; [reflexivity |].
  split; [right; left |].
  split; [left; reflexivity | reflexivity].
Qed.

(** C9, amended.  In a trading cycle the exit checks run first and the
    body never raises: the trades of the cycle are closing trades, made by
    the exit checks, followed by opening trades, made by the entries.
    Every entry is on a candidate of the scan, and no candidate has a
    position once the exit checks are done: a ticker whose position
    outlives the exit checks keeps it and gets no new one.  (A ticker
    closed by the exit checks is free, and can be entered again in the same
    cycle.) *)
Theorem exits_before_entries {World : Type} `{!Collaborators World}
    (e : Engine World) :
  exists tickers e1 candidates,
    cycle_exits e = (Py.Return tickers, e1) /\
    cycle_entries tickers e1 = (Py.Return tt, run_trading_cycle e) /\
    exits_only (portfolio e) (portfolio e1) /\
    entries_only candidates (portfolio e1) (portfolio (run_trading_cycle e)) /\
    Forall (fun t => positions (portfolio e1) !! t = None) candidates.
Proof.
  destruct (get_sp500_companies (world e)) as [tickers w] eqn:Hco.
  destruct (check_exit_conditions_exits (mkEngine (portfolio e) w))
    as (e1 & He1 & Hexits).
  simpl in Hexits.
  destruct (scan_for_opportunities_reads tickers e1)
    as (c & e2 & Hscan & Hsame & Hfree).
  destruct (execute_trades_entries c.1 c.2 e2) as [Hret Hentries].
  assert (Hexit : cycle_exits e = (Py.Return tickers, e1)).
  { unfold cycle_exits, bind, on_world, ret. now rewrite Hco, He1. }
  assert (Hentry : exists e3,
    cycle_entries tickers e1 = (Py.Return tt, e3) /\
    portfolio e3 = portfolio (snd (execute_trades c.1 c.2 e2))).
  { unfold cycle_entries, bind, the_portfolio, on_world. rewrite Hscan.
    destruct (execute_trades c.1 c.2 e2) as [r e3]. simpl in Hret. subst r.
    simpl. eexists. split; reflexivity. }
  destruct Hentry as (e3 & Hentry & Hpf).
  assert (Hrun : run_trading_cycle e = e3).
  { unfold run_trading_cycle, bind. now rewrite Hexit, Hentry. }
  exists tickers, e1, (c.1 ++ c.2). rewrite Hrun.
  split; [exact Hexit |]. split; [exact Hentry |].
  split; [exact Hexits |].
  split; [now rewrite Hpf, <- Hsame | exact Hfree].
Qed.

(* ===================================================================== *)
(** ** Further properties of the ledger *)
(* ===================================================================== *)

(** What a call does, with the position and the trade it builds spelled
    out. *)
Lemma after_exact c s :
  after c s = s
  \/ (exists d p,
        (c = OpenLong (call_ticker c) p /\ d = LONG
         \/ c = OpenShort (call_ticker c) p /\ d = SHORT) /\
        can_open_position s = true /\
        positions s !! call_ticker c = None /\
        ~ p == 0 /\
        after c s =
          {| cash := cash s - POSITION_SIZE;
             positions :=
               <[call_ticker c := new_position d (call_ticker c) p]>
                 (positions s);
             trades := trades s ++ [opening_trade d (call_ticker c) p] |})
  \/ (exists pos x why,
        c = Close (call_ticker c) x why /\
        positions s !! call_ticker c = Some pos /\
        close_position (call_ticker c) x why s = (Py.Return true, after c s)).
Proof.
  assert (Hopen : forall d t p,
    snd (open_position d t p s) = s
    \/ (can_open_position s = true /\ positions s !! t = None /\ ~ p == 0 /\
        snd (open_position d t p s) =
          {| cash := cash s - POSITION_SIZE;
             positions := <[t := new_position d t p]> (positions s);
             trades := trades s ++ [opening_trade d t p] |})).
  { intros d t p. destruct (open_position d t p s) as [r s'] eqn:E.
    destruct (open_position_cases _ _ _ _ _ _ E)
      as [(-> & Hcan & Hfree & Hp) | (_ & ->)]; [right | now left].
    rewrite (open_position_success d t p s Hcan Hfree Hp) in E.
    injection E as <-. auto. }
  unfold after. destruct c as [t p | t p | t x why]; simpl.
  - destruct (Hopen LONG t p) as [H | (Hcan & Hfree & Hp & H)]; [now left |].
    right; left. exists LONG, p. auto 10.
  - destruct (Hopen SHORT t p) as [H | (Hcan & Hfree & Hp & H)]; [now left |].
    right; left. exists SHORT, p. auto 10.
  - destruct (positions s !! t) as [pos |] eqn:Hpos.
    + right; right. exists pos, x, why.
      rewrite (close_position_success _ _ _ _ _ Hpos). auto.
    + left. now rewrite (close_position_absent _ _ _ _ Hpos).
Qed.

Lemma reachable_run cs s : reachable s -> reachable (run cs s).
Proof.
  revert s. induction cs as [| c cs IH]; intros s Hs; simpl; [exact Hs |].
  apply IH. now constructor.
Qed.

(** X1.  Positions are never changed in place.  Whatever the state, a call
    leaves a held position exactly as it is or removes it, and so does any
    sequence of calls up to the first one that removes it: a position is
    never overwritten or edited.  Consequently, in every reachable state the
    position filed under a ticker is still the one its open built from the
    entry price (that ticker, quantity = budget / entry price, the two
    levels computed from the entry price). *)
Theorem reachable_positions_fixed :
  (forall c s t pos,
      positions s !! t = Some pos ->
      positions (after c s) !! t = Some pos
      \/ positions (after c s) !! t = None)
  /\ (forall cs s t pos,
        positions s !! t = Some pos ->
        positions (run cs s) !! t = Some pos
        \/ exists before rest,
             cs = before ++ rest /\
             positions (run before s) !! t = None)
  /\ (forall s,
        reachable s ->
        forall t pos,
          positions s !! t = Some pos ->
          pos = new_position (position_type pos) t (entry_price pos)).
Proof.
  assert (Hstep : forall c s t pos,
    positions s !! t = Some pos ->
    positions (after c s) !! t = Some pos
    \/ positions (after c s) !! t = None).
  { intros c s t pos Hpos.
    destruct (after_exact c s)
      as [-> | [(d & p & _ & _ & Hfree & _ & ->)
               | (pos' & x & why & _ & Hpos' & Hclose)]].
    - now left.
    - left. simpl. rewrite lookup_insert_ne; [exact Hpos | congruence].
    - rewrite (close_position_success _ _ _ _ _ Hpos') in Hclose.
      injection Hclose as <-. simpl.
      destruct (decide (call_ticker c = t)) as [<- | Hne].
      + right. apply lookup_delete_eq.
      + left. now rewrite lookup_delete_ne. }
  split; [exact Hstep |]. split.
  - intros cs. induction cs as [| c cs IH]; intros s t pos Hpos.
    + now left.
    + simpl. destruct (Hstep c s t pos Hpos) as [Hkept | Hgone].
      * destruct (IH (after c s) t pos Hkept)
          as [Hend | (before & rest & -> & Hnone)]; [now left |].
        right. exists (c :: before), rest. split; [reflexivity | exact Hnone].
      * right. exists [c], cs. split; [reflexivity | exact Hgone].
  - induction 1 as [| c s _ IH]; intros t pos.
    + simpl. now rewrite lookup_empty.
    + destruct (after_exact c s)
        as [-> | [(d & p & _ & _ & _ & Hp & ->)
                 | (pos' & x & why & _ & Hpos & Hclose)]].
      * apply IH.
      * simpl. destruct (decide (call_ticker c = t)) as [<- | Hne].
        -- rewrite lookup_insert_eq. intros [= <-]. simpl. auto.
        -- rewrite lookup_insert_ne by exact Hne. apply IH.
      * rewrite (close_position_success _ _ _ _ _ Hpos) in Hclose.
        injection Hclose as <-. simpl.
        destruct (decide (call_ticker c = t)) as [<- | Hne].
        -- now rewrite lookup_delete_eq.
        -- rewrite lookup_delete_ne by exact Hne. apply IH.
Qed.

Lemma reachable_positions_fixed_witness :
  (positions (after (OpenShort "X" 50) long_X) !! "X"%string
   = Some (new_position LONG "X" 100)
   \/ positions (after (OpenShort "X" 50) long_X) !! "X"%string = None)
  /\ new_position SHORT "Y" 50
     = new_position (position_type (new_position SHORT "Y" 50)) "Y"
         (entry_price (new_position SHORT "Y" 50)).
Proof.
  split.
  - apply (proj1 reachable_positions_fixed (OpenShort "X" 50) long_X).
    vm_compute. reflexivity.
  - apply (proj2 (proj2 reachable_positions_fixed) long_X_short_Y).
    + repeat apply reachable_call. apply reachable_initial.
    + vm_compute. reflexivity.
Defined.

(** X2.  The trade list only grows: after any sequence of calls the old
    list is a prefix of the new one, at most one trade is added per call,
    and every added trade is an opening or a closing trade. *)
Theorem trades_append_only cs s :
  exists new,
    trades (run cs s) = trades s ++ new /\
    (length new <= length cs)%nat /\
    Forall (fun tr => is_opening tr \/ is_closing tr) new.
Proof.
  revert s. induction cs as [| c cs IH]; intros s; simpl.
  - exists []. rewrite app_nil_r.
    split; [reflexivity |]. split; [simpl; lia | constructor].
  - destruct (IH (after c s)) as (new & Hnew & Hlen & Hall).
    destruct (after_cases c s)
      as [Hsame | [(pos & tr & _ & _ & _ & _ & _ & Hop & Hafter)
                  | (pos & tr & _ & _ & Hcl & Hafter)]].
    + exists new. rewrite Hnew, Hsame.
      split; [reflexivity |]. split; [lia | exact Hall].
    + exists (tr :: new). rewrite Hnew, Hafter. simpl.
      rewrite <- app_assoc.
      split; [reflexivity |]. split; [simpl; lia |].
      constructor; [now left | exact Hall].
    + exists (tr :: new). rewrite Hnew, Hafter. simpl.
      rewrite <- app_assoc.
      split; [reflexivity |]. split; [simpl; lia |].
      constructor; [now right | exact Hall].
Qed.



(** X4.  A position cannot be closed twice: once a close on a ticker has
    succeeded, a further close on it returns [False] and changes nothing,
    so the budget is credited once. *)
Theorem close_twice_fails t x why s s' :
  close_position t x why s = (Py.Return true, s') ->
  forall x' why', close_position t x' why' s' = (Py.Return false, s').
Proof.
  intros Hclose x' why'.
  destruct (positions s !! t) as [pos |] eqn:Hpos.
  - rewrite (close_position_success _ _ _ _ _ Hpos) in Hclose.
    injection Hclose as <-. apply close_position_absent. simpl.
    apply lookup_delete_eq.
  - rewrite (close_position_absent _ _ _ _ Hpos) in Hclose. discriminate.
Qed.

Lemma close_twice_fails_witness :
  close_position "X" 90 "again"
    (after (Close "X" 103 "Take profit reached") long_X)
  = (Py.Return false, after (Close "X" 103 "Take profit reached") long_X).
Proof.
  apply (close_twice_fails "X" 103 "Take profit reached" long_X).
  vm_compute. reflexivity.
Defined.

(* ===================================================================== *)
(** ** The shape of the trade list *)
(* ===================================================================== *)

Lemma opening_not_closing tr : is_opening tr -> ~ is_closing tr.
Proof. intros [H | H] [H' | H']; rewrite H in H'; discriminate. Qed.

Lemma openings_snoc l tr :
  openings (l ++ [tr])
  = openings l ++ (if decide (is_opening tr) then [tr] else []).
Proof.
  unfold openings. rewrite filter_app, filter_cons, filter_nil.
  reflexivity.
Qed.

Lemma closings_snoc l tr :
  closings (l ++ [tr])
  = closings l ++ (if decide (is_closing tr) then [tr] else []).
Proof.
  unfold closings. rewrite filter_app, filter_cons, filter_nil.
  reflexivity.
Qed.

(** In reachable states every trade is an opening trade without profit or
    loss or a closing trade, and the opening trades outnumber the closing
    ones by the number of open positions. *)
Lemma reachable_trade_shape s :
  reachable s ->
  Forall (fun tr => is_opening tr /\ profit_loss tr = 0 \/ is_closing tr)
    (trades s)
  /\ length (openings (trades s))
     = (length (closings (trades s)) + open_count s)%nat.
Proof.
  induction 1 as [| c s _ [IHall IHcount]].
  - split; [constructor | reflexivity].
  - destruct (after_cases c s)
      as [-> | [(pos & tr & _ & Hfree & _ & _ & Hpl & Hop & ->)
               | (pos & tr & Hpos & _ & Hcl & ->)]];
      unfold open_count in *; simpl.
    + now split.
    + split.
      * apply Forall_app. split; [exact IHall |]. constructor; [| constructor].
        now left.
      * rewrite openings_snoc, closings_snoc, !length_app.
        rewrite (map_size_insert_None _ _ _ Hfree).
        destruct (decide (is_opening tr)) as [_ | Hn]; [| contradiction].
        destruct (decide (is_closing tr)) as [Hc | _];
          [now apply opening_not_closing in Hop |].
        simpl. lia.
    + split.
      * apply Forall_app. split; [exact IHall |]. constructor; [| constructor].
        now right.
      * rewrite openings_snoc, closings_snoc, !length_app.
        rewrite (size_delete_Some _ _ _ Hpos) in IHcount.
        destruct (decide (is_closing tr)) as [_ | Hn]; [| contradiction].
        destruct (decide (is_opening tr)) as [Ho | _];
          [now apply opening_not_closing in Ho |].
        simpl. lia.
Qed.

Lemma length_openings_closings l :
  Forall (fun tr => is_opening tr /\ profit_loss tr = 0 \/ is_closing tr) l ->
  length l = (length (openings l) + length (closings l))%nat.
Proof.
  induction 1 as [| tr l Htr _ IH]; [reflexivity |].
  unfold openings, closings in *. rewrite !filter_cons. simpl.
  destruct (decide (is_opening tr)) as [Ho | Ho];
    destruct (decide (is_closing tr)) as [Hc | Hc]; simpl.
  - now apply opening_not_closing in Ho.
  - lia.
  - lia.
  - destruct Htr as [[Ho' _] | Hc']; contradiction.
Qed.

(** Only closing trades can be profitable or losing. *)
Lemma decided_le_closings l :
  Forall (fun tr => is_opening tr /\ profit_loss tr = 0 \/ is_closing tr) l ->
  (length (List.filter (fun t => Py.gt (profit_loss t) 0) l)
   + length (List.filter (fun t => Py.lt (profit_loss t) 0) l)
   <= length (closings l))%nat.
Proof.
  induction 1 as [| tr l Htr _ IH]; [simpl; lia |].
  unfold closings in *. rewrite filter_cons. simpl.
  destruct Htr as [[Ho Hpl] | Hc].
  - rewrite Hpl. change (Py.gt 0 0) with false. change (Py.lt 0 0) with false.
    destruct (decide (is_closing tr)); simpl; lia.
  - destruct (decide (is_closing tr)) as [_ | Hn]; [| contradiction].
    destruct (Py.gt (profit_loss tr) 0) eqn:Hgt;
      destruct (Py.lt (profit_loss tr) 0) eqn:Hlt; simpl; try lia.
    apply py_gt_spec in Hgt. apply py_lt_spec in Hlt. exfalso. lra.
Qed.

(** X8.  What [get_statistics] reports in a reachable state.  The trades
    are the closing trades twice over plus one opening trade per open
    position; only closing trades are counted as profitable or losing; so
    profitable_trades is at most half of total_trades and [win_rate],
    which divides by all trades, openings included, never exceeds 1/2. *)
Theorem reachable_statistics s :
  reachable s ->
  total_trades (get_statistics s)
  = (2 * length (closings (trades s)) + active_positions (get_statistics s))%nat
  /\ (profitable_trades (get_statistics s) + losing_trades (get_statistics s)
      <= length (closings (trades s)))%nat
  /\ (2 * profitable_trades (get_statistics s)
      <= total_trades (get_statistics s))%nat
  /\ 0 <= win_rate (get_statistics s) <= 1 # 2.
Proof.
  intros Hreach.
  destruct (reachable_trade_shape s Hreach) as [Hall Hcount].
  pose proof (length_openings_closings _ Hall) as Hlen.
  pose proof (decided_le_closings _ Hall) as Hdec.
  assert (Htotal : length (trades s)
                   = (2 * length (closings (trades s)) + open_count s)%nat)
    by lia.
  split; [exact Htotal |]. split; [exact Hdec |].
  assert (Hhalf : (2 * length (List.filter (fun t => Py.gt (profit_loss t) 0)
                                  (trades s))
                   <= length (trades s))%nat) by lia.
  split; [exact Hhalf |].
  cbn [get_statistics win_rate].
  destruct (0 <? length (trades s))%nat eqn:Hpos; [| lra].
  apply Nat.ltb_lt in Hpos.
  set (a := length (List.filter _ (trades s))) in *.
  set (n := length (trades s)) in *.
  assert (Hn : 0 < Py.of_nat n).
  { unfold Py.of_nat. rewrite <- (Zlt_Qlt 0). lia. }
  assert (Ha : 0 <= Py.of_nat a).
  { unfold Py.of_nat. rewrite <- (Zle_Qle 0). lia. }
  assert (H2a : 2 * Py.of_nat a <= Py.of_nat n).
  { unfold Py.of_nat. change 2 with (inject_Z 2).
    rewrite <- inject_Z_mult, <- Zle_Qle. lia. }
  split.
  - apply Qle_shift_div_l; [exact Hn | lra].
  - apply Qle_shift_div_r; [exact Hn | lra].
Qed.

Lemma reachable_statistics_witness :
  0 <= win_rate (get_statistics
                   (after (Close "X" 103 "Take profit reached") long_X))
    <= 1 # 2.
Proof.
  apply (reachable_statistics
           (after (Close "X" 103 "Take profit reached") long_X)).
  repeat apply reachable_call. apply reachable_initial.
Defined.

(* ===================================================================== *)
(** ** The price change and the scan *)
(* ===================================================================== *)



Lemma scan_loop_step stock_data s t rest long short :
  scan_loop stock_data s (t :: rest) long short
  = match entry_signal stock_data s t with
    | Some LONG => scan_loop stock_data s rest (long ++ [t]) short
    | Some SHORT => scan_loop stock_data s rest long (short ++ [t])
    | None => scan_loop stock_data s rest long short
    end.
Proof.
  cbn [scan_loop]. unfold entry_signal.
  destruct (has_position t s); [reflexivity |].
  destruct (stock_data !! t) as [data |]; [| reflexivity].
  destruct (calculate_price_change data LOOKBACK_DAYS) as [change |];
    [| reflexivity].
  destruct (np_ge change SHORT_TRIGGER); [reflexivity |].
  destruct (np_le change BUY_TRIGGER); reflexivity.
Qed.

Lemma scan_loop_acc stock_data s tickers long short :
  scan_loop stock_data s tickers long short
  = (long ++ filter (fun t => entry_signal stock_data s t = Some LONG) tickers,
     short ++ filter (fun t => entry_signal stock_data s t = Some SHORT) tickers).
Proof.
  revert long short.
  induction tickers as [| t tickers IH]; intros long short.
  - simpl. now rewrite !app_nil_r.
  - rewrite scan_loop_step, !filter_cons.
    destruct (entry_signal stock_data s t) as [[|] |].
    + rewrite decide_True by reflexivity.
      rewrite decide_False by discriminate.
      rewrite IH, <- app_assoc. reflexivity.
    + rewrite decide_False by discriminate.
      rewrite decide_True by reflexivity.
      rewrite IH, <- app_assoc. reflexivity.
    + rewrite !decide_False by discriminate. apply IH.
Qed.

(** X10.  [scan_for_opportunities] never raises and leaves the portfolio as
    it is.  Its two lists are the tickers of the universe, in their order
    and with their repetitions, for which the body of the loop signals a
    LONG and a SHORT: not held, data present, a price change computed and
    past the trigger.  No ticker is in both lists, and no candidate has a
    position. *)
Theorem scan_for_opportunities_filters {World : Type} `{!Collaborators World}
    (tickers : list string) (e : Engine World) :
  exists stock_data w long short,
    get_stock_data tickers (world e) = (stock_data, w) /\
    scan_for_opportunities tickers e
    = (Py.Return (long, short), mkEngine (portfolio e) w) /\
    long = filter (fun t => entry_signal stock_data (portfolio e) t = Some LONG)
             tickers /\
    short = filter (fun t => entry_signal stock_data (portfolio e) t = Some SHORT)
              tickers /\
    (forall t, t ∈ long -> t ∉ short) /\
    (forall t, t ∈ long ++ short ->
               t ∈ tickers /\ positions (portfolio e) !! t = None).
Proof.
  destruct (get_stock_data tickers (world e)) as [stock_data w] eqn:Hdata.
  exists stock_data, w. eexists; eexists.
  split; [reflexivity |]. split.
  - unfold scan_for_opportunities, bind, on_world, the_portfolio, ret.
    rewrite Hdata. simpl. rewrite scan_loop_acc. reflexivity.
  - split; [reflexivity |]. split; [reflexivity |]. simpl. split.
    + intros t Hl Hs.
      apply list_elem_of_filter in Hl as [Hl _].
      apply list_elem_of_filter in Hs as [Hs _]. congruence.
    + intros t Hin.
      assert (Hsig : t ∈ tickers /\
                     is_Some (entry_signal stock_data (portfolio e) t)).
      { apply elem_of_app in Hin as [Hin | Hin];
          apply list_elem_of_filter in Hin as [Hsig Hin]; eauto. }
      destruct Hsig as [Ht [d Hd]]. split; [exact Ht |].
      unfold entry_signal in Hd.
      destruct (has_position t (portfolio e)) eqn:Hhas; [discriminate |].
      now apply has_position_false.
Qed.

(* ===================================================================== *)
(** ** The exit checks *)
(* ===================================================================== *)

Lemma should_close_position_reason t p s why :
  should_close_position t p s = Some why ->
  is_Some (positions s !! t)
  /\ (why = TAKE_PROFIT_REACHED \/ why = STOP_LOSS_TRIGGERED).
Proof.
  unfold should_close_position.
  destruct (positions s !! t) as [pos |]; [| discriminate].
  intros H. split; [eauto |].
  destruct (position_type pos);
    repeat match type of H with
    | (if ?b then _ else _) = _ => destruct b
    end; inversion H; auto.
Qed.

Section ExitChecks.
Context {World : Type} `{!Collaborators World}.

Implicit Types e : Engine World.

(** The first loop collects, in the order of the keys and at most once per
    key, entries that [should_close_position] justifies at a non-zero
    price. *)
Lemma collect_exits_found keys acc e :
  exists found e',
    collect_exits keys acc e = (Py.Return (acc ++ found), e') /\
    portfolio e' = portfolio e /\
    sublist found.*1.*1 keys /\
    Forall (fun x => Py.truthy x.1.2 = true /\
                     should_close_position x.1.1 x.1.2 (portfolio e)
                     = Some x.2) found.
Proof.
  revert acc e. induction keys as [| t keys IH]; intros acc e.
  - exists [], e. simpl. rewrite app_nil_r.
    repeat split; constructor.
  - cbn [collect_exits]. unfold bind, on_world, the_portfolio.
    destruct (get_current_price t (world e)) as [cp w].
    assert (Hskip : forall acc',
      acc' = acc ->
      exists found e',
        collect_exits keys acc' (mkEngine (portfolio e) w)
        = (Py.Return (acc ++ found), e') /\
        portfolio e' = portfolio e /\
        sublist found.*1.*1 (t :: keys) /\
        Forall (fun x => Py.truthy x.1.2 = true /\
                         should_close_position x.1.1 x.1.2 (portfolio e)
                         = Some x.2) found).
    { intros acc' ->.
      destruct (IH acc (mkEngine (portfolio e) w))
        as (found & e' & Hrun & Hpf & Hsub & Hall).
      exists found, e'. repeat split; try assumption.
      now apply sublist_cons. }
    destruct cp as [p |]; [| now apply Hskip].
    destruct (Py.truthy p) eqn:Htruthy; [| now apply Hskip]. simpl.
    destruct (should_close_position t p (portfolio e)) as [why |] eqn:Hwhy;
      [| now apply Hskip].
    destruct (negb (String.eqb why "")); [| now apply Hskip].
    destruct (IH (acc ++ [(t, p, why)]) (mkEngine (portfolio e) w))
      as (found & e' & Hrun & Hpf & Hsub & Hall).
    exists ((t, p, why) :: found), e'.
    split; [now rewrite Hrun, <- app_assoc |].
    split; [exact Hpf |].
    split; [now apply sublist_skip |].
    constructor; [split; assumption | exact Hall].
Qed.

(** The second loop closes what was collected: with distinct tickers that
    all have a position, every close succeeds. *)
Lemma close_all_closes l s w :
  NoDup l.*1.*1 ->
  Forall (fun x => is_Some (positions s !! x.1.1)) l ->
  exists e' closes,
    close_all l (mkEngine s w) = (Py.Return tt, e') /\
    world e' = w /\
    cash (portfolio e') == cash s + Qsum
      (map (fun tr => POSITION_SIZE + profit_loss tr) closes) /\
    trades (portfolio e') = trades s ++ closes /\
    Forall2 (fun x tr => is_closing tr /\ trade_ticker tr = x.1.1 /\
                         price tr = x.1.2 /\ reason tr = x.2) l closes /\
    (forall t, positions (portfolio e') !! t
               = if decide (t ∈ l.*1.*1) then None else positions s !! t) /\
    size (positions s) = (size (positions (portfolio e')) + length l)%nat.
Proof.
  revert s. induction l as [| [[t p] why] l IH]; intros s Hnd Hheld.
  - exists (mkEngine s w), []. simpl. rewrite app_nil_r.
    repeat split; try constructor; try reflexivity.
    + simpl. ring.
    + simpl. lia.
  - cbn [close_all]. unfold bind, on_portfolio. simpl in Hnd.
    apply NoDup_cons in Hnd as [Hnotin Hnd].
    apply Forall_cons in Hheld as [[pos Hpos] Hheld]. simpl in Hpos.
    rewrite (close_position_success _ _ _ _ _ Hpos). simpl.
    set (tr := mkTrade t _ p (quantity pos) _ why).
    set (s1 := mkPortfolio _ _ _).
    destruct (IH s1 Hnd) as (e' & closes & Hrun & Hw & Hcash & Htr & Hf2 & Hlook & Hsize).
    { apply Forall_forall. intros x Hx.
      assert (Hne : t <> x.1.1).
      { intros Heq. apply Hnotin. rewrite Heq.
        apply list_elem_of_fmap. exists x.1. split; [reflexivity |].
        apply list_elem_of_fmap. exists x. split; [reflexivity | exact Hx]. }
      simpl. rewrite lookup_delete_ne by exact Hne.
      rewrite Forall_forall in Hheld. now apply Hheld. }
    exists e', (tr :: closes).
    split; [exact Hrun |]. split; [exact Hw |].
    split; [rewrite Hcash; simpl; ring |].
    split; [rewrite Htr; simpl; now rewrite <- app_assoc |].
    split.
    { constructor; [| exact Hf2]. subst tr. simpl. repeat split.
      destruct (position_type pos); [left | right]; reflexivity. }
    split.
    + intros u. rewrite Hlook. simpl.
      destruct (decide (u ∈ l.*1.*1)) as [Hin | Hout].
      * rewrite decide_True by now right. reflexivity.
      * destruct (decide (u = t)) as [-> | Hne].
        -- rewrite decide_True by now left. apply lookup_delete_eq.
        -- rewrite decide_False
             by (intros Hu; apply elem_of_cons in Hu as [? | ?]; contradiction).
           now apply lookup_delete_ne.
    + simpl in Hsize. rewrite (size_delete_Some _ _ _ Hpos). simpl. lia.
Qed.

(** X11.  What the exit checks do, whatever the provider answers.  They
    never raise.  Every trade they add is a closing trade, and the reason it
    carries is the one [should_close_position] gives, in the state before
    the checks, for its ticker at its price, which is not zero.  No ticker
    is closed twice; the closed tickers lose their position; every other
    position is left as it was; and the cash grows by the per-position
    budget plus the profit or loss of each closing trade. *)
Theorem check_exit_conditions_closes e :
  exists e' closes,
    check_exit_conditions e = (Py.Return tt, e') /\
    trades (portfolio e') = trades (portfolio e) ++ closes /\
    Forall (fun tr =>
              is_closing tr /\ ~ price tr == 0 /\
              should_close_position (trade_ticker tr) (price tr) (portfolio e)
              = Some (reason tr)) closes /\
    NoDup (trade_ticker <$> closes) /\
    (forall t, positions (portfolio e') !! t
               = if decide (t ∈ trade_ticker <$> closes) then None
                 else positions (portfolio e) !! t) /\
    open_count (portfolio e)
    = (open_count (portfolio e') + length closes)%nat /\
    cash (portfolio e')
    == cash (portfolio e)
       + Qsum (map (fun tr => POSITION_SIZE + profit_loss tr) closes).
Proof.
  unfold check_exit_conditions, bind, the_portfolio.
  destruct (collect_exits_found
              (map_to_list (positions (portfolio e))).*1 [] e)
    as (found & e1 & Hcollect & Hpf & Hsub & Hall).
  rewrite Hcollect. simpl.
  assert (Hnd : NoDup found.*1.*1).
  { eapply sublist_NoDup; [| exact Hsub]. apply NoDup_fst_map_to_list. }
  assert (Hheld : Forall (fun x => is_Some (positions (portfolio e) !! x.1.1))
                    found).
  { eapply Forall_impl; [exact Hall |]. intros x [_ Hx].
    now apply should_close_position_reason in Hx. }
  destruct e1 as [s1 w1]. simpl in Hpf. subst s1.
  destruct (close_all_closes found (portfolio e) w1 Hnd Hheld)
    as (e' & closes & Hrun & _ & Hcash & Htr & Hf2 & Hlook & Hsize).
  assert (Htick : trade_ticker <$> closes = found.*1.*1).
  { clear -Hf2. induction Hf2 as [| x tr l l' (_ & Hx & _) _ IH];
      [reflexivity |].
    rewrite !fmap_cons. now rewrite Hx, IH. }
  exists e', closes.
  split; [exact Hrun |]. split; [exact Htr |].
  split.
  { clear -Hf2 Hall. induction Hf2 as [| x tr l l' (Hc & Ht & Hp & Hr) _ IH];
      [constructor |].
    apply Forall_cons in Hall as [[Htruthy Hwhy] Hall].
    constructor; [| now apply IH].
    rewrite Ht, Hp, Hr. repeat split; try assumption.
    now apply py_truthy_spec. }
  split; [now rewrite Htick |].
  split; [intros t; rewrite Htick; apply Hlook |].
  split; [| exact Hcash].
  unfold open_count. rewrite Hsize.
  replace (length closes) with (length found); [reflexivity |].
  now apply Forall2_length in Hf2.
Qed.

End ExitChecks.

Lemma exit_due_lookup quote s s' t :
  positions s' !! t = positions s !! t ->
  exit_due quote s' t = exit_due quote s t.
Proof.
  intros Hsame. unfold exit_due, should_close_position. now rewrite Hsame.
Qed.

Lemma exit_due_held quote s t :
  exit_due quote s t = true -> is_Some (positions s !! t).
Proof.
  unfold exit_due. destruct (quote t) as [p |]; [| discriminate].
  intros H. apply andb_true_iff in H as [_ H].
  apply bool_decide_eq_true in H as [why Hwhy].
  now apply should_close_position_reason in Hwhy.
Qed.

Section ExitChecksQuoted.
Context {World : Type} `{!Collaborators World}.

Implicit Types e : Engine World.

(** With quotes that do not depend on the world, the first loop collects
    exactly the keys whose exit is due, and leaves the engine as it is. *)
Lemma collect_exits_quoted quote keys acc e :
  quotes_from quote ->
  exists found,
    collect_exits keys acc e = (Py.Return (acc ++ found), e) /\
    (forall t, t ∈ found.*1.*1 <->
               t ∈ keys /\ exit_due quote (portfolio e) t = true) /\
    Forall (fun x => usable_quote quote x.1.1 = Some x.1.2) found.
Proof.
  intros Hq. revert acc. induction keys as [| t keys IH]; intros acc.
  - exists []. simpl. rewrite app_nil_r. split; [reflexivity |].
    split; [| constructor].
    intros t. split; [intros H | intros [H _]]; inversion H.
  - cbn [collect_exits]. unfold bind, on_world, the_portfolio.
    rewrite (Hq t (world e)). destruct e as [s w]. simpl.
    assert (Hskip : exit_due quote s t = false ->
      exists found,
        collect_exits keys acc (mkEngine s w)
        = (Py.Return (acc ++ found), mkEngine s w) /\
        (forall u, u ∈ found.*1.*1 <->
                   u ∈ t :: keys /\ exit_due quote s u = true) /\
        Forall (fun x => usable_quote quote x.1.1 = Some x.1.2) found).
    { intros Hdue. destruct (IH acc) as (found & Hrun & Hiff & Hpr).
      exists found. split; [exact Hrun |]. split; [| exact Hpr].
      intros u. rewrite Hiff.
      simpl. rewrite elem_of_cons. split; [tauto |].
      intros [[-> | Hin] Hu]; [congruence | tauto]. }
    destruct (quote t) as [p |] eqn:Hquote;
      [| apply Hskip; unfold exit_due; now rewrite Hquote].
    destruct (Py.truthy p) eqn:Htruthy;
      [| apply Hskip; unfold exit_due; now rewrite Hquote, Htruthy].
    simpl.
    destruct (should_close_position t p s) as [why |] eqn:Hwhy.
    + assert (Hnonempty : negb (String.eqb why "") = true).
      { destruct (should_close_position_reason _ _ _ _ Hwhy) as [_ [-> | ->]];
          reflexivity. }
      rewrite Hnonempty.
      destruct (IH (acc ++ [(t, p, why)])) as (found & Hrun & Hiff & Hpr).
      exists ((t, p, why) :: found).
      split; [now rewrite Hrun, <- app_assoc |].
      split;
        [| constructor; [unfold usable_quote; simpl; now rewrite Hquote, Htruthy
                        | exact Hpr]].
      intros u. rewrite !fmap_cons. simpl. rewrite !elem_of_cons, Hiff.
      split; [| tauto].
      intros [-> | [Hin Hu]]; [| tauto].
      split; [now left |]. unfold exit_due.
      rewrite Hquote, Htruthy, Hwhy. reflexivity.
    + apply Hskip. unfold exit_due. rewrite Hquote, Htruthy, Hwhy.
      reflexivity.
Qed.

(** X12.  The exit checks against quotes that do not depend on the world.
    They remove exactly the positions whose exit is due (a price is quoted,
    it is not zero, and [should_close_position] gives a reason at it) and
    keep every other position as it is; a position without a quote or with
    a quote of zero is never closed.  Run again at once, on the same
    quotes, they change nothing. *)
Theorem check_exit_conditions_quoted quote e :
  quotes_from quote ->
  exists e',
    check_exit_conditions e = (Py.Return tt, e') /\
    world e' = world e /\
    (forall t, positions (portfolio e') !! t
               = if exit_due quote (portfolio e) t then None
                 else positions (portfolio e) !! t) /\
    check_exit_conditions e' = (Py.Return tt, e').
Proof.
  intros Hq.
  assert (Hone : forall e0 : Engine World,
    exists e1 found,
      check_exit_conditions e0 = (Py.Return tt, e1) /\
      close_all found e0 = (Py.Return tt, e1) /\
      world e1 = world e0 /\
      (forall t, t ∈ found.*1.*1 <->
                 is_Some (positions (portfolio e0) !! t) /\
                 exit_due quote (portfolio e0) t = true) /\
      (forall t, positions (portfolio e1) !! t
                 = if decide (t ∈ found.*1.*1) then None
                   else positions (portfolio e0) !! t)).
  { intros e0. unfold check_exit_conditions, bind, the_portfolio.
    destruct (collect_exits_quoted quote
                (map_to_list (positions (portfolio e0))).*1 [] e0 Hq)
      as (found & Hcollect & Hiff & _).
    destruct (collect_exits_found
                (map_to_list (positions (portfolio e0))).*1 [] e0)
      as (found' & e1 & Hcollect' & _ & Hsub & Hall).
    rewrite Hcollect in Hcollect'. injection Hcollect' as <- <-.
    rewrite Hcollect. simpl.
    assert (Hnd : NoDup found.*1.*1).
    { eapply sublist_NoDup; [| exact Hsub]. apply NoDup_fst_map_to_list. }
    assert (Hheld : Forall (fun x => is_Some (positions (portfolio e0) !! x.1.1))
                      found).
    { eapply Forall_impl; [exact Hall |]. intros x [_ Hx].
      now apply should_close_position_reason in Hx. }
    destruct e0 as [s0 w0]. simpl in *.
    destruct (close_all_closes found s0 w0 Hnd Hheld)
      as (e1 & closes & Hrun & Hw & _ & _ & _ & Hlook & _).
    exists e1, found.
    split; [exact Hrun |]. split; [exact Hrun |]. split; [exact Hw |].
    split; [| exact Hlook].
    intros t. rewrite Hiff. split; intros [Hin Hdue]; (split; [| exact Hdue]).
    - apply list_elem_of_fmap in Hin as ([k v] & -> & Hin).
      apply elem_of_map_to_list in Hin. simpl. eauto.
    - destruct Hin as [pos Hpos].
      apply list_elem_of_fmap. exists (t, pos). split; [reflexivity |].
      now apply elem_of_map_to_list. }
  destruct (Hone e) as (e' & found & Hrun & _ & Hw & Hiff & Hlook).
  assert (Hpos : forall t, positions (portfolio e') !! t
                 = if exit_due quote (portfolio e) t then None
                   else positions (portfolio e) !! t).
  { intros t. rewrite Hlook.
    destruct (decide (t ∈ found.*1.*1)) as [Hin | Hout].
    - apply Hiff in Hin as [_ ->]. reflexivity.
    - destruct (exit_due quote (portfolio e) t) eqn:Hdue; [| reflexivity].
      destruct (positions (portfolio e) !! t) as [pos |] eqn:Hp;
        [| reflexivity].
      exfalso. apply Hout, Hiff. eauto. }
  exists e'. split; [exact Hrun |]. split; [exact Hw |].
  split; [exact Hpos |].
  destruct (Hone e') as (e'' & found2 & Hrun2 & Hclose2 & _ & Hiff2 & _).
  assert (Hempty : found2 = []).
  { destruct found2 as [| x found2]; [reflexivity |]. exfalso.
    assert (Hin : x.1.1 ∈ (x :: found2).*1.*1) by (rewrite !fmap_cons; left).
    apply Hiff2 in Hin as [[pos Hp] Hdue].
    rewrite Hpos in Hp.
    destruct (exit_due quote (portfolio e) x.1.1) eqn:Hdue0; [discriminate |].
    rewrite (exit_due_lookup quote (portfolio e) (portfolio e')) in Hdue;
      [congruence |].
    rewrite Hpos, Hdue0. reflexivity. }
  subst found2. simpl in Hclose2. injection Hclose2 as <-. exact Hrun2.
Qed.

End ExitChecksQuoted.

Lemma check_exit_conditions_quoted_witness :
  exists e',
    @check_exit_conditions unit falling_market (mkEngine long_X tt)
    = (Py.Return tt, e') /\
    positions (portfolio e') !! "X"%string = None.
Proof.
  destruct (@check_exit_conditions_quoted unit falling_market
              (fun _ => Some 94) (mkEngine long_X tt))
    as (e' & Hrun & _ & Hpos & _).
  - intros t w. reflexivity.
  - exists e'. split; [exact Hrun |]. rewrite Hpos. vm_compute. reflexivity.
Defined.

(* ===================================================================== *)
(** ** The entries *)
(* ===================================================================== *)

Lemma py_of_nat_add a b : Py.of_nat (a + b) == Py.of_nat a + Py.of_nat b.
Proof.
  unfold Py.of_nat. rewrite Nat2Z.inj_add, inject_Z_plus. reflexivity.
Qed.

Lemma run_app cs1 cs2 s : run (cs1 ++ cs2) s = run cs2 (run cs1 s).
Proof. unfold run. apply fold_left_app. Qed.

Lemma entered_refl cands s : entered cands s s [].
Proof.
  unfold entered. rewrite app_nil_r. simpl.
  split; [reflexivity |]. split; [constructor |]. split; [constructor |].
  split; [reflexivity |]. split; [lia |]. unfold Py.of_nat. simpl. ring.
Qed.

Lemma entered_weaken cands cands' s s' opens :
  cands ⊆ cands' -> entered cands s s' opens -> entered cands' s s' opens.
Proof.
  intros Hsub (Htr & Hall & Hrest). split; [exact Htr |].
  split; [| exact Hrest].
  eapply Forall_impl; [exact Hall |].
  intros tr (Hin & H). split; [now apply Hsub | exact H].
Qed.

Lemma entered_trans cands s1 s2 s3 o1 o2 :
  entered cands s1 s2 o1 -> entered cands s2 s3 o2 ->
  entered cands s1 s3 (o1 ++ o2).
Proof.
  intros (Ht1 & Ha1 & Hn1 & Hs1 & Hc1 & Hm1) (Ht2 & Ha2 & Hn2 & Hs2 & Hc2 & Hm2).
  rewrite Forall_forall in Ha1. rewrite Forall_forall in Ha2.
  split; [now rewrite Ht2, Ht1, app_assoc |].
  split.
  { apply Forall_app. split; apply Forall_forall; intros tr Hin.
    - destruct (Ha1 tr Hin) as (Hc & Hpl & Hp & Hfree & [pos Hpos]).
      repeat split; try assumption.
      exists pos. eapply lookup_weaken; eassumption.
    - destruct (Ha2 tr Hin) as (Hc & Hpl & Hp & Hfree & Hheld).
      repeat split; try assumption.
      eapply lookup_weaken_None; eassumption. }
  split.
  { rewrite fmap_app. apply NoDup_app. split; [exact Hn1 |].
    split; [| exact Hn2].
    intros t Hin1 Hin2.
    apply list_elem_of_fmap in Hin1 as (tr1 & -> & Hin1).
    apply list_elem_of_fmap in Hin2 as (tr2 & Heq & Hin2).
    destruct (Ha1 tr1 Hin1) as (_ & _ & _ & _ & [pos Hpos]).
    destruct (Ha2 tr2 Hin2) as (_ & _ & _ & Hfree & _).
    rewrite <- Heq in Hfree. congruence. }
  split; [now transitivity (positions s2) |].
  split; [rewrite length_app; lia |].
  rewrite Hm2, Hm1, length_app, py_of_nat_add. ring.
Qed.

(** One open, seen as a ledger call and as an entry. *)
Lemma open_position_entered d t p s :
  ~ p == 0 ->
  exists b opens,
    open_position d t p s = (Py.Return b, after (entry_call d t p) s) /\
    entered [t] s (after (entry_call d t p) s) opens /\
    Forall (fun tr => action tr = entry_action d) opens.
Proof.
  intros Hp.
  assert (Hafter : after (entry_call d t p) s = snd (open_position d t p s))
    by (destruct d; reflexivity).
  rewrite Hafter.
  destruct (open_position d t p s) as [r s'] eqn:E.
  destruct (open_position_cases _ _ _ _ _ _ E)
    as [(-> & Hcan & Hfree & _) | (Hr & ->)]; simpl.
  - rewrite (open_position_success d t p s Hcan Hfree Hp) in E.
    injection E as <-.
    exists true, [opening_trade d t p]. split; [reflexivity |].
    split; [| constructor; [destruct d; reflexivity | constructor]].
    unfold entered, open_count. simpl.
    split; [reflexivity |].
    split.
    { constructor; [| constructor].
      split; [apply list_elem_of_singleton; reflexivity |].
      split; [reflexivity |]. split; [exact Hp |].
      split; [exact Hfree |]. rewrite lookup_insert_eq. eauto. }
    split; [apply NoDup_singleton |].
    split; [now apply insert_subseteq |].
    split; [rewrite (map_size_insert_None _ _ _ Hfree); lia |].
    unfold Py.of_nat. simpl. ring.
  - destruct (open_position_returns d t p s Hp) as [b Hb].
    rewrite E in Hb. simpl in Hb. subst r.
    exists b, []. split; [reflexivity |].
    split; [apply entered_refl | constructor].
Qed.

Section Entries.
Context {World : Type} `{!Collaborators World}.

Implicit Types e : Engine World.

Lemma execute_loop_entered d candidates e :
  exists e' opens cs,
    execute_loop (open_position d) candidates e = (Py.Return tt, e') /\
    entered candidates (portfolio e) (portfolio e') opens /\
    Forall (fun tr => action tr = entry_action d) opens /\
    portfolio e' = run cs (portfolio e) /\
    (can_open_position (portfolio e) = false -> e' = e).
Proof.
  revert e. induction candidates as [| t rest IH]; intros e.
  - exists e, [], []. simpl.
    split; [reflexivity |]. split; [apply entered_refl |].
    split; [constructor |]. split; reflexivity.
  - cbn [execute_loop]. unfold bind, the_portfolio, on_world, on_portfolio.
    destruct (can_open_position (portfolio e)) eqn:Hcan; simpl.
    2:{ exists e, [], []. split; [reflexivity |].
        split; [apply entered_refl |]. split; [constructor |].
        split; reflexivity. }
    destruct (get_current_price t (world e)) as [cp w].
    assert (Hskip : exists e' opens cs,
      execute_loop (open_position d) rest (mkEngine (portfolio e) w)
      = (Py.Return tt, e') /\
      entered (t :: rest) (portfolio e) (portfolio e') opens /\
      Forall (fun tr => action tr = entry_action d) opens /\
      portfolio e' = run cs (portfolio e) /\
      (true = false -> e' = e)).
    { destruct (IH (mkEngine (portfolio e) w))
        as (e' & opens & cs & Hrun & Hent & Hact & Hcs & _).
      exists e', opens, cs. split; [exact Hrun |].
      split; [| split; [exact Hact | split; [exact Hcs | discriminate]]].
      eapply entered_weaken; [| exact Hent]. intros x Hx. now right. }
    destruct cp as [p |]; [| exact Hskip].
    destruct (Py.truthy p) eqn:Htruthy; [| exact Hskip].
    apply py_truthy_spec in Htruthy. simpl.
    destruct (open_position_entered d t p (portfolio e) Htruthy)
      as (b & o1 & Hopen & Hent1 & Hact1).
    rewrite Hopen.
    destruct (IH (mkEngine (after (entry_call d t p) (portfolio e)) w))
      as (e' & o2 & cs & Hrun & Hent2 & Hact2 & Hcs & _).
    simpl in Hent2, Hcs.
    exists e', (o1 ++ o2), (entry_call d t p :: cs).
    split; [exact Hrun |].
    split.
    { eapply entered_trans.
      - eapply entered_weaken; [| exact Hent1].
        intros x Hx. apply list_elem_of_singleton in Hx. subst x. now left.
      - eapply entered_weaken; [| exact Hent2]. intros x Hx. now right. }
    split; [now apply Forall_app |].
    split; [exact Hcs | discriminate].
Qed.

(** X13.  What [execute_trades] does, whatever the provider answers.  It
    never raises.  It adds opening trades only: first BUY trades on long
    candidates, then SHORT trades on short candidates.  Each is on a ticker
    that had no position and now has one, at a non-zero price; no ticker is
    entered twice, even when it is listed twice or in both lists; every
    position held before is untouched; the cash drops by one budget per
    entry.  Without capacity at the start it does nothing at all, not even
    ask a price. *)
Theorem execute_trades_enters long short e :
  exists e' buys shorts,
    execute_trades long short e = (Py.Return tt, e') /\
    entered (long ++ short) (portfolio e) (portfolio e') (buys ++ shorts) /\
    Forall (fun tr => action tr = "BUY"%string /\ trade_ticker tr ∈ long) buys /\
    Forall (fun tr => action tr = "SHORT"%string /\ trade_ticker tr ∈ short)
      shorts /\
    (can_open_position (portfolio e) = false -> e' = e).
Proof.
  unfold execute_trades, bind.
  destruct (execute_loop_entered LONG long e)
    as (e1 & buys & cs1 & Hrun1 & Hent1 & Hact1 & _ & Hidle1).
  simpl in Hrun1. rewrite Hrun1.
  destruct (execute_loop_entered SHORT short e1)
    as (e' & shorts & cs2 & Hrun2 & Hent2 & Hact2 & _ & Hidle2).
  simpl in Hrun2.
  exists e', buys, shorts. split; [exact Hrun2 |].
  split.
  { eapply entered_trans.
    - eapply entered_weaken; [| exact Hent1].
      intros x Hx. apply elem_of_app. now left.
    - eapply entered_weaken; [| exact Hent2].
      intros x Hx. apply elem_of_app. now right. }
  split.
  { destruct Hent1 as (_ & Hall & _).
    apply Forall_forall. intros tr Hin.
    rewrite Forall_forall in Hact1. rewrite Forall_forall in Hall.
    split; [now apply Hact1 | now apply Hall]. }
  split.
  { destruct Hent2 as (_ & Hall & _).
    apply Forall_forall. intros tr Hin.
    rewrite Forall_forall in Hact2. rewrite Forall_forall in Hall.
    split; [now apply Hact2 | now apply Hall]. }
  intros Hcan. pose proof (Hidle1 Hcan) as ->. now apply Hidle2.
Qed.

End Entries.

Lemma execute_trades_enters_witness :
  exists e',
    @execute_trades unit falling_market ["X"%string] ["Y"%string]
      (mkEngine {| cash := 5; positions := ∅; trades := [] |} tt)
    = (Py.Return tt, e') /\
    e' = mkEngine {| cash := 5; positions := ∅; trades := [] |} tt.
Proof.
  destruct (@execute_trades_enters unit falling_market
              ["X"%string] ["Y"%string]
              (mkEngine {| cash := 5; positions := ∅; trades := [] |} tt))
    as (e' & buys & shorts & Hrun & _ & _ & _ & Hidle).
  exists e'. split; [exact Hrun |]. apply Hidle. vm_compute. reflexivity.
Defined.

(* ===================================================================== *)
(** ** The cycle and the ledger *)
(* ===================================================================== *)

Lemma open_count_run cs s :
  (Z.of_nat (open_count s) <= MAX_POSITIONS)%Z ->
  (Z.of_nat (open_count (run cs s)) <= MAX_POSITIONS)%Z.
Proof.
  revert s. induction cs as [| c cs IH]; intros s Hs; simpl; [exact Hs |].
  apply IH. now apply open_count_after.
Qed.

Section CycleLedger.
Context {World : Type} `{!Collaborators World}.

Implicit Types e : Engine World.

Lemma close_all_run l e :
  exists e',
    close_all l e = (Py.Return tt, e') /\
    portfolio e'
    = run (map (fun x : string * Q * string => Close x.1.1 x.1.2 x.2) l)
        (portfolio e).
Proof.
  revert e. induction l as [| [[t p] why] l IH]; intros e.
  - exists e. split; reflexivity.
  - cbn [close_all]. unfold bind, on_portfolio.
    destruct (close_position_exits t p why (portfolio e)) as (b & Hb & _).
    destruct (close_position t p why (portfolio e)) as [r s'] eqn:E.
    simpl in Hb. subst r.
    destruct (IH (mkEngine s' (world e))) as (e' & Hrun & Hpf).
    exists e'. split; [exact Hrun |].
    rewrite Hpf. simpl. unfold after. simpl. now rewrite E.
Qed.

Lemma check_exit_conditions_run e :
  exists e' cs,
    check_exit_conditions e = (Py.Return tt, e') /\
    portfolio e' = run cs (portfolio e).
Proof.
  unfold check_exit_conditions, bind, the_portfolio.
  destruct (collect_exits_reads
              (map_to_list (positions (portfolio e))).*1 [] e)
    as (found & e1 & Hcollect & Hsame).
  rewrite Hcollect.
  destruct (close_all_run found e1) as (e' & Hrun & Hpf).
  exists e'. eexists. split; [exact Hrun |]. rewrite Hpf, Hsame. reflexivity.
Qed.

(** X14.  A trading cycle is a sequence of ledger calls: the portfolio it
    leaves is the one some list of open and close calls produces from the
    portfolio it found.  So a cycle keeps the portfolio reachable and keeps
    the number of open positions within [MAX_POSITIONS]. *)
Theorem run_trading_cycle_ledger e :
  (exists cs, portfolio (run_trading_cycle e) = run cs (portfolio e))
  /\ (reachable (portfolio e) -> reachable (portfolio (run_trading_cycle e)))
  /\ ((Z.of_nat (open_count (portfolio e)) <= MAX_POSITIONS)%Z ->
      (Z.of_nat (open_count (portfolio (run_trading_cycle e)))
       <= MAX_POSITIONS)%Z).
Proof.
  assert (Hcalls : exists cs,
            portfolio (run_trading_cycle e) = run cs (portfolio e)).
  { unfold run_trading_cycle, cycle_exits, cycle_entries.
    unfold bind at 1 2 3. unfold on_world at 1, ret.
    destruct (get_sp500_companies (world e)) as [tickers w].
    destruct (check_exit_conditions_run (mkEngine (portfolio e) w))
      as (e1 & cs1 & Hexit & Hpf1).
    rewrite Hexit. simpl in Hpf1.
    unfold bind, the_portfolio, on_world.
    destruct (scan_for_opportunities_reads tickers e1)
      as (c & e2 & Hscan & Hsame & _).
    rewrite Hscan.
    unfold execute_trades, bind.
    destruct (execute_loop_entered LONG c.1 e2)
      as (e3 & o1 & cs2 & Hrun1 & _ & _ & Hpf2 & _).
    simpl in Hrun1. rewrite Hrun1.
    destruct (execute_loop_entered SHORT c.2 e3)
      as (e4 & o2 & cs3 & Hrun2 & _ & _ & Hpf3 & _).
    simpl in Hrun2. rewrite Hrun2. simpl.
    exists (cs1 ++ cs2 ++ cs3).
    rewrite !run_app, <- Hpf1, <- Hsame, <- Hpf2, <- Hpf3. reflexivity. }
  destruct Hcalls as [cs Hcs].
  split; [eauto |]. rewrite Hcs.
  split; [apply reachable_run | apply open_count_run].
Qed.

End CycleLedger.

Lemma run_trading_cycle_ledger_witness :
  reachable (portfolio (@run_trading_cycle unit falling_market
                          (mkEngine long_X tt)))
  /\ (Z.of_nat (open_count (portfolio (@run_trading_cycle unit falling_market
                                         (mkEngine long_X tt))))
      <= MAX_POSITIONS)%Z.
Proof.
  destruct (@run_trading_cycle_ledger unit falling_market (mkEngine long_X tt))
    as (_ & Hreach & Hcount).
  split.
  - apply Hreach. apply reachable_call, reachable_initial.
  - apply Hcount. vm_compute. discriminate.
Defined.

(* ===================================================================== *)
(** ** The portfolio summary *)
(* ===================================================================== *)

Section SummaryQuoted.
Context {World : Type} `{!Collaborators World}.

Implicit Types e : Engine World.

Lemma fetch_prices_quoted quote keys acc e :
  quotes_from quote ->
  exists prices,
    fetch_prices keys acc e = (Py.Return prices, e) /\
    forall t, prices !! t
              = if decide (t ∈ keys)
                then match usable_quote quote t with
                     | Some p => Some p
                     | None => acc !! t
                     end
                else acc !! t.
Proof.
  intros Hq. revert acc. induction keys as [| k keys IH]; intros acc.
  - exists acc. split; [reflexivity |]. intros t.
    rewrite decide_False; [reflexivity | apply not_elem_of_nil].
  - cbn [fetch_prices]. unfold bind, on_world.
    rewrite (Hq k (world e)). destruct e as [s w]. simpl.
    assert (Hstep : forall acc',
      (forall t, acc' !! t
                 = if decide (t = k)
                   then match usable_quote quote k with
                        | Some p => Some p
                        | None => acc !! k
                        end
                   else acc !! t) ->
      exists prices,
        fetch_prices keys acc' (mkEngine s w)
        = (Py.Return prices, mkEngine s w) /\
        forall t, prices !! t
                  = if decide (t ∈ k :: keys)
                    then match usable_quote quote t with
                         | Some p => Some p
                         | None => acc !! t
                         end
                    else acc !! t).
    { intros acc' Hacc'. destruct (IH acc') as (prices & Hrun & Hlook).
      exists prices. split; [exact Hrun |]. intros t.
      rewrite Hlook, Hacc'.
      destruct (decide (t ∈ keys)) as [Hin | Hout].
      - destruct (decide (t ∈ k :: keys)) as [_ | Hn];
          [| exfalso; apply Hn; now right].
        destruct (usable_quote quote t) eqn:Hu; [reflexivity |].
        destruct (decide (t = k)) as [-> | _]; [| reflexivity].
        now rewrite Hu.
      - destruct (decide (t = k)) as [-> | Hne].
        + destruct (decide (k ∈ k :: keys)) as [_ | Hn];
            [reflexivity | exfalso; apply Hn; now left].
        + destruct (decide (t ∈ k :: keys)) as [Hin | _]; [| reflexivity].
          apply elem_of_cons in Hin as [? | ?]; contradiction. }
    unfold usable_quote in Hstep at 1.
    destruct (quote k) as [p |].
    + destruct (Py.truthy p).
      * apply Hstep. intros t.
        destruct (decide (t = k)) as [-> | Hne].
        -- apply lookup_insert_eq.
        -- now apply lookup_insert_ne.
      * apply Hstep. intros t.
        destruct (decide (t = k)) as [-> | Hne]; reflexivity.
    + apply Hstep. intros t.
      destruct (decide (t = k)) as [-> | Hne]; reflexivity.
Qed.

(** X15.  [get_portfolio_summary] against quotes that do not depend on the
    world.  It never raises and changes nothing.  The value it reports is
    [get_portfolio_value] at the prices of the held tickers that have a
    usable quote, a quote of zero counting as none; its return is
    (value - INITIAL_BUDGET) / INITIAL_BUDGET; its initial budget is
    [INITIAL_BUDGET]; and cash, active positions, total, profitable and
    losing trades, win rate and total profit are those of
    [get_statistics]. *)
Theorem get_portfolio_summary_quoted quote e :
  quotes_from quote ->
  exists sm prices,
    get_portfolio_summary e = (Py.Return sm, e) /\
    (forall t, prices !! t
               = if has_position t (portfolio e) then usable_quote quote t
                 else None) /\
    current_value sm = get_portfolio_value prices (portfolio e) /\
    total_return sm = (current_value sm - INITIAL_BUDGET) / INITIAL_BUDGET /\
    initial_budget sm = INITIAL_BUDGET /\
    summary_cash sm = stat_cash (get_statistics (portfolio e)) /\
    summary_active_positions sm
    = active_positions (get_statistics (portfolio e)) /\
    summary_total_trades sm = total_trades (get_statistics (portfolio e)) /\
    summary_profitable_trades sm
    = profitable_trades (get_statistics (portfolio e)) /\
    summary_losing_trades sm = losing_trades (get_statistics (portfolio e)) /\
    summary_win_rate sm = win_rate (get_statistics (portfolio e)) /\
    summary_total_profit sm = total_profit (get_statistics (portfolio e)).
Proof.
  intros Hq.
  destruct (fetch_prices_quoted quote
              (map_to_list (positions (portfolio e))).*1 ∅ e Hq)
    as (prices & Hfetch & Hlook).
  assert (Hprices : forall t,
    prices !! t
    = if has_position t (portfolio e) then usable_quote quote t else None).
  { intros t. rewrite Hlook, lookup_empty.
    destruct (has_position t (portfolio e)) eqn:Hhas.
    - apply has_position_true in Hhas as [pos Hpos].
      rewrite decide_True.
      + destruct (usable_quote quote t); reflexivity.
      + apply list_elem_of_fmap. exists (t, pos). split; [reflexivity |].
        now apply elem_of_map_to_list.
    - apply has_position_false in Hhas.
      rewrite decide_False; [reflexivity |].
      intros Hin. apply list_elem_of_fmap in Hin as ([k v] & -> & Hin).
      apply elem_of_map_to_list in Hin. simpl in Hhas. congruence. }
  assert (Hdiv : forall x,
    Py.div x INITIAL_BUDGET = Py.Return (x / INITIAL_BUDGET)).
  { intros x. apply py_div_nonzero. unfold INITIAL_BUDGET. discriminate. }
  eexists. exists prices. split.
  { unfold get_portfolio_summary, bind, the_portfolio, ret.
    rewrite Hfetch, Hdiv. reflexivity. }
  split; [exact Hprices |].
  repeat (split; [reflexivity |]). reflexivity.
Qed.

End SummaryQuoted.

Lemma get_portfolio_summary_quoted_witness :
  exists sm prices,
    @get_portfolio_summary unit market_of_X (mkEngine long_X_short_Y tt)
    = (Py.Return sm, mkEngine long_X_short_Y tt) /\
    prices !! "X"%string = Some 94 /\
    prices !! "Y"%string = None /\
    current_value sm = get_portfolio_value prices long_X_short_Y /\
    summary_active_positions sm = 2%nat.
Proof.
  destruct (@get_portfolio_summary_quoted unit market_of_X only_X_at_94
              (mkEngine long_X_short_Y tt))
    as (sm & prices & Hrun & Hprices & Hvalue & _ & _ & _ & Hactive & _).
  - intros t w. reflexivity.
  - exists sm, prices. split; [exact Hrun |].
    split; [rewrite Hprices; vm_compute; reflexivity |].
    split; [rewrite Hprices; vm_compute; reflexivity |].
    split; [exact Hvalue |].
    rewrite Hactive. vm_compute. reflexivity.
Defined.

(* ===================================================================== *)
(** ** Prices the ledger does not check *)
(* ===================================================================== *)



(* ===================================================================== *)
(** ** The ledger in binary64 *)
(* ===================================================================== *)

Lemma f64_has_position_false t s :
  F64.positions s !! t = None -> F64.has_position t s = false.
Proof.
  intros H. unfold F64.has_position. apply bool_decide_eq_false.
  rewrite H. intros [x Hx]. discriminate.
Qed.

(** The quotient is the IEEE one whenever the division returns. *)
Lemma f64_div_cases x p :
  if F64.zero_py_float p
  then F64.div x p = Py.Raise Py.ZeroDivisionError
  else F64.div x p = Py.Return (x / F64.value p)%float.
Proof.
  destruct p as [y | y]; simpl; [destruct (y =? 0)%float |]; reflexivity.
Qed.

(** Both opens, as one equation. *)
Lemma f64_open_position_unfold d t p s :
  F64.open_position d t p s
  = if negb (F64.can_open_position s) then (Py.Return false, s)
    else if F64.has_position t s then (Py.Return false, s)
    else
      match F64.div F64.POSITION_SIZE p with
      | Py.Raise e => (Py.Raise e, s)
      | Py.Return qty =>
          (Py.Return true,
           {| F64.cash := (F64.cash s - F64.POSITION_SIZE)%float;
              F64.positions :=
                <[t := F64.new_position d t (F64.value p) qty]>
                  (F64.positions s);
              F64.trades :=
                F64.trades s ++ [F64.opening_trade d t (F64.value p) qty] |})
      end.
Proof. destruct d; reflexivity. Qed.

Lemma f64_open_position_success d t p s :
  F64.can_open_position s = true ->
  F64.positions s !! t = None ->
  F64.zero_py_float p = false ->
  F64.open_position d t p s
  = (Py.Return true,
     {| F64.cash := (F64.cash s - F64.POSITION_SIZE)%float;
        F64.positions :=
          <[t := F64.new_position d t (F64.value p)
                   (F64.POSITION_SIZE / F64.value p)%float]>
            (F64.positions s);
        F64.trades :=
          F64.trades s
          ++ [F64.opening_trade d t (F64.value p)
                (F64.POSITION_SIZE / F64.value p)%float] |}).
Proof.
  intros Hcan Hfree Hz.
  rewrite f64_open_position_unfold, Hcan, (f64_has_position_false _ _ Hfree).
  simpl. pose proof (f64_div_cases F64.POSITION_SIZE p) as Hdiv.
  rewrite Hz in Hdiv. now rewrite Hdiv.
Qed.

(** An open that returns [True] found capacity, a free ticker and a price
    it could divide by. *)
Lemma f64_open_position_true d t p s s1 :
  F64.open_position d t p s = (Py.Return true, s1) ->
  F64.can_open_position s = true
  /\ F64.positions s !! t = None
  /\ F64.zero_py_float p = false.
Proof.
  rewrite f64_open_position_unfold.
  destruct (F64.can_open_position s); simpl; [| discriminate].
  unfold F64.has_position.
  destruct (F64.positions s !! t) as [pos |] eqn:Hpos.
  - rewrite bool_decide_eq_true_2 by eauto. discriminate.
  - rewrite bool_decide_eq_false_2 by (intros [x Hx]; discriminate).
    pose proof (f64_div_cases F64.POSITION_SIZE p) as Hdiv.
    destruct (F64.zero_py_float p); [rewrite Hdiv; discriminate |].
    intros _. now split.
Qed.

(** The close, as one equation. *)
Lemma f64_close_position_unfold t x why s :
  F64.close_position t x why s
  = match F64.positions s !! t with
    | None => (Py.Return false, s)
    | Some pos =>
        (Py.Return true,
         {| F64.cash :=
              (F64.cash s + (F64.POSITION_SIZE + F64.realized pos x))%float;
            F64.positions := delete t (F64.positions s);
            F64.trades := F64.trades s ++ [F64.closing_trade pos t x why] |})
    end.
Proof.
  unfold F64.close_position, F64.closing_trade, F64.realized, F64.exit_action.
  destruct (F64.positions s !! t) as [pos |]; [| reflexivity].
  destruct (F64.position_type pos); reflexivity.
Qed.

(** What one call does to the state: nothing, an open, or a close. *)
Lemma f64_after_cases c s :
  F64.after c s = s
  \/ (exists d p qty,
        F64.positions s !! F64.call_ticker c = None
        /\ F64.after c s
           = {| F64.cash := (F64.cash s - F64.POSITION_SIZE)%float;
                F64.positions :=
                  <[F64.call_ticker c :=
                      F64.new_position d (F64.call_ticker c) p qty]>
                    (F64.positions s);
                F64.trades :=
                  F64.trades s
                  ++ [F64.opening_trade d (F64.call_ticker c) p qty] |})
  \/ (exists pos x why,
        F64.positions s !! F64.call_ticker c = Some pos
        /\ F64.after c s
           = {| F64.cash :=
                  (F64.cash s
                   + (F64.POSITION_SIZE + F64.realized pos x))%float;
                F64.positions := delete (F64.call_ticker c) (F64.positions s);
                F64.trades :=
                  F64.trades s
                  ++ [F64.closing_trade pos (F64.call_ticker c) x why] |}).
Proof.
  assert (Hopen : forall d t p,
    snd (F64.open_position d t p s) = s
    \/ exists qty,
         F64.positions s !! t = None
         /\ snd (F64.open_position d t p s)
            = {| F64.cash := (F64.cash s - F64.POSITION_SIZE)%float;
                 F64.positions :=
                   <[t := F64.new_position d t (F64.value p) qty]>
                     (F64.positions s);
                 F64.trades :=
                   F64.trades s
                   ++ [F64.opening_trade d t (F64.value p) qty] |}).
  { intros d t p. rewrite f64_open_position_unfold.
    destruct (F64.can_open_position s); simpl; [| now left].
    unfold F64.has_position.
    destruct (F64.positions s !! t) as [pos |] eqn:Hpos.
    - rewrite bool_decide_eq_true_2 by eauto. now left.
    - rewrite bool_decide_eq_false_2 by (intros [x Hx]; discriminate).
      destruct (F64.div F64.POSITION_SIZE p) as [qty | e]; [| now left].
      right. exists qty. now split. }
  destruct c as [t p | t p | t x why]; unfold F64.after; simpl.
  - destruct (Hopen LONG t p) as [H | (qty & Hfree & H)]; [now left |].
    right. left. exists LONG, (F64.value p), qty. now split.
  - destruct (Hopen SHORT t p) as [H | (qty & Hfree & H)]; [now left |].
    right. left. exists SHORT, (F64.value p), qty. now split.
  - rewrite f64_close_position_unfold.
    destruct (F64.positions s !! t) as [pos |] eqn:Hpos; [| now left].
    right. right. exists pos, x, why. now split.
Qed.

(** A call leaves the positions of the other tickers alone. *)
Lemma f64_after_lookup_other c s t :
  F64.call_ticker c <> t ->
  F64.positions (F64.after c s) !! t = F64.positions s !! t.
Proof.
  intros Hne.
  destruct (f64_after_cases c s)
    as [-> | [(d & p & qty & _ & ->) | (pos & x & why & _ & ->)]]; simpl.
  - reflexivity.
  - now apply lookup_insert_ne.
  - now apply lookup_delete_ne.
Qed.

Lemma f64_run_lookup_other cs : forall s t,
  F64.untouched t cs ->
  F64.positions (F64.run cs s) !! t = F64.positions s !! t.
Proof.
  induction cs as [| c cs IH]; intros s t H; [reflexivity |].
  apply Forall_cons in H as [Hc Hcs]. simpl.
  unfold F64.run in IH. rewrite (IH _ _ Hcs).
  now apply f64_after_lookup_other.
Qed.

Lemma f64_opening_not_closing tr : F64.is_opening tr -> ~ F64.is_closing tr.
Proof. intros [H | H] [H' | H']; rewrite H in H'; discriminate. Qed.

Lemma f64_opening_trade_is_opening d t p qty :
  F64.is_opening (F64.opening_trade d t p qty).
Proof. destruct d; [now left | now right]. Qed.

Lemma f64_closing_trade_is_closing pos t x why :
  F64.is_closing (F64.closing_trade pos t x why).
Proof.
  unfold F64.is_closing, F64.closing_trade, F64.exit_action. simpl.
  destruct (F64.position_type pos); [now left | now right].
Qed.

Lemma f64_openings_snoc l tr :
  F64.openings (l ++ [tr])
  = F64.openings l ++ (if decide (F64.is_opening tr) then [tr] else []).
Proof.
  unfold F64.openings. rewrite filter_app, filter_cons, filter_nil.
  reflexivity.
Qed.

Lemma f64_closings_snoc l tr :
  F64.closings (l ++ [tr])
  = F64.closings l ++ (if decide (F64.is_closing tr) then [tr] else []).
Proof.
  unfold F64.closings. rewrite filter_app, filter_cons, filter_nil.
  reflexivity.
Qed.



(* ===================================================================== *)
(** ** Round trips in binary64 *)
(* ===================================================================== *)

(** C1, as stated, fails.  Without any other operation: a LONG on "X"
    bought at 13.3 from the initial cash 1000.0 and sold at 13.43 books the
    profit 0.09774436090225488 and leaves the cash 1000.0977443609022,
    while the cash before the open plus that profit is 1000.0977443609023;
    the two floats differ.  With another operation in between: a LONG on
    "X" at 100, a LONG on "Y" at 50, then "X" sold at 103 leaves the cash
    990.3, while the cash before the open plus the profit is 1000.3. *)
Lemma round_trip_cash_counterexample :
  (exists s1 tr,
     F64.open_long_position "X" (F64.NpFloat64 13.3) F64.initial_portfolio
     = (Py.Return true, s1)
     /\ F64.close_position "X" 13.43 "exit" s1
        = (Py.Return true, F64.bought_and_sold)
     /\ F64.trades F64.bought_and_sold = F64.trades s1 ++ [tr]
     /\ F64.cash F64.bought_and_sold = 1000.0977443609022%float
     /\ (F64.cash F64.initial_portfolio + F64.profit_loss tr
         = 1000.0977443609023)%float
     /\ (F64.cash F64.bought_and_sold
         =? F64.cash F64.initial_portfolio + F64.profit_loss tr)%float
        = false)
  /\ (exists s1 s2 tr,
        F64.open_long_position "X" (F64.NpFloat64 100) F64.initial_portfolio
        = (Py.Return true, s1)
        /\ F64.open_long_position "Y" (F64.NpFloat64 50) s1
           = (Py.Return true, s2)
        /\ F64.close_position "X" 103 "take profit reached" s2
           = (Py.Return true, F64.sold_beside_Y)
        /\ F64.trades F64.sold_beside_Y = F64.trades s2 ++ [tr]
        /\ F64.cash F64.sold_beside_Y = 990.3%float
        /\ (F64.cash F64.initial_portfolio + F64.profit_loss tr
            = 1000.3)%float
        /\ (F64.cash F64.sold_beside_Y
            =? F64.cash F64.initial_portfolio + F64.profit_loss tr)%float
           = false).
Proof.
  split.
  - eexists. eexists.
    split; [vm_compute; reflexivity |].
    split; [vm_compute; reflexivity |].
    split; [vm_compute; reflexivity |].
    split; [vm_compute; reflexivity |].
    split; vm_compute; reflexivity.
  - eexists. eexists. eexists.
    split; [vm_compute; reflexivity |].
    split; [vm_compute; reflexivity |].
    split; [vm_compute; reflexivity |].
    split; [vm_compute; reflexivity |].
    split; [vm_compute; reflexivity |].
    split; vm_compute; reflexivity.
Qed.

(** C1, amended.  A round trip on one ticker in binary64: after a
    successful open in direction [d] at the price [p] from [s0], and any
    calls [others] that do not name the ticker, the close at [x] succeeds
    and appends one trade whose quantity is the float [POSITION_SIZE / p]
    and whose profit or loss is the float [(x - p) * (POSITION_SIZE / p)]
    for a LONG and [(p - x) * (POSITION_SIZE / p)] for a SHORT.  The open
    has set the cash to [cash - POSITION_SIZE], and the close sets it to
    the cash it finds plus [(POSITION_SIZE + profit_loss)], each a rounded
    float operation; with no calls in between the cash after the close is
    [(cash_before - POSITION_SIZE) + (POSITION_SIZE + profit_loss)]. *)
Theorem round_trip_cash_binary64 (d : PositionType) (t : string)
    (p : F64.number) (x : float) (why : string) (others : list F64.call)
    (s0 s1 : F64.Portfolio) :
  F64.open_position d t p s0 = (Py.Return true, s1) ->
  F64.untouched t others ->
  let qty := (F64.POSITION_SIZE / F64.value p)%float in
  let pl :=
    match d with
    | LONG => ((x - F64.value p) * qty)%float
    | SHORT => ((F64.value p - x) * qty)%float
    end in
  let act := match d with LONG => "SELL"%string | SHORT => "COVER"%string end in
  exists s3,
    F64.close_position t x why (F64.run others s1) = (Py.Return true, s3)
    /\ F64.trades s3
       = F64.trades (F64.run others s1) ++ [F64.mkTrade t act x qty pl why]
    /\ F64.positions s3 !! t = None
    /\ F64.cash s1 = (F64.cash s0 - F64.POSITION_SIZE)%float
    /\ F64.cash s3
       = (F64.cash (F64.run others s1) + (F64.POSITION_SIZE + pl))%float
    /\ (others = [] ->
        F64.cash s3
        = ((F64.cash s0 - F64.POSITION_SIZE)
           + (F64.POSITION_SIZE + pl))%float).
Proof.
  intros Hopen Hothers qty pl act.
  destruct (f64_open_position_true _ _ _ _ _ Hopen) as (Hcan & Hfree & Hz).
  rewrite (f64_open_position_success d t p s0 Hcan Hfree Hz) in Hopen.
  injection Hopen as <-.
  set (s1 := {| F64.cash := (F64.cash s0 - F64.POSITION_SIZE)%float;
                F64.positions := _; F64.trades := _ |}).
  assert (Hpos : F64.positions (F64.run others s1) !! t
                 = Some (F64.new_position d t (F64.value p) qty)).
  { rewrite (f64_run_lookup_other others s1 t Hothers).
    apply lookup_insert_eq. }
  rewrite f64_close_position_unfold, Hpos.
  assert (Htr : F64.closing_trade (F64.new_position d t (F64.value p) qty)
                  t x why
                = F64.mkTrade t act x qty pl why)
    by (destruct d; reflexivity).
  assert (Hpl : F64.realized (F64.new_position d t (F64.value p) qty) x = pl)
    by (destruct d; reflexivity).
  rewrite Htr, Hpl.
  eexists. split; [reflexivity |]. simpl.
  split; [reflexivity |].
  split; [apply lookup_delete_eq |].
  split; [reflexivity |].
  split; [reflexivity |].
  intros ->. reflexivity.
Qed.

Lemma round_trip_cash_binary64_witness :
  let s1 :=
    F64.after (F64.OpenLong "X" (F64.NpFloat64 13.3)) F64.initial_portfolio in
  let between := [F64.OpenShort "Y" (F64.NpFloat64 50)] in
  let pl := ((13.43 - 13.3) * (F64.POSITION_SIZE / 13.3))%float in
  (exists s3,
     F64.close_position "X" 13.43 "exit" (F64.run between s1)
     = (Py.Return true, s3)
     /\ F64.trades s3
        = F64.trades (F64.run between s1)
          ++ [F64.mkTrade "X" "SELL" 13.43 (F64.POSITION_SIZE / 13.3) pl
                "exit"]
     /\ F64.cash s3
        = (F64.cash (F64.run between s1) + (F64.POSITION_SIZE + pl))%float)
  /\ (exists s3,
        F64.close_position "X" 13.43 "exit" s1 = (Py.Return true, s3)
        /\ F64.cash s3
           = ((F64.cash F64.initial_portfolio - F64.POSITION_SIZE)
              + (F64.POSITION_SIZE + pl))%float).
Proof.
  intros s1 between pl. split.
  - destruct (round_trip_cash_binary64 LONG "X" (F64.NpFloat64 13.3) 13.43
                "exit" between F64.initial_portfolio s1)
      as (s3 & Hclose & Htrades & _ & _ & Hcash & _).
    + vm_compute. reflexivity.
    + repeat constructor. simpl. discriminate.
    + exists s3. split; [exact Hclose |]. split; [exact Htrades | exact Hcash].
  - destruct (round_trip_cash_binary64 LONG "X" (F64.NpFloat64 13.3) 13.43
                "exit" [] F64.initial_portfolio s1)
      as (s3 & Hclose & _ & _ & _ & _ & Hcash).
    + vm_compute. reflexivity.
    + constructor.
    + exists s3. split; [exact Hclose | exact (Hcash eq_refl)].
Defined.

(* ===================================================================== *)
(** ** Closing a position in binary64 *)
(* ===================================================================== *)

(** C5, as stated, fails in its example.  After a LONG on "X" at 100.0
    from the initial state (cash 990.0), closing at 103.0 succeeds and
    books the profit (103.0 - 100.0) * (10.0 / 100.0), which is the float
    0.30000000000000004: it is above the float 0.3 and does not compare
    equal to it. *)
Lemma close_position_profit_counterexample :
  exists s2 tr,
    F64.cash F64.long_X = 990%float
    /\ F64.close_position "X" 103 "take profit reached" F64.long_X
       = (Py.Return true, s2)
    /\ F64.trades s2 = F64.trades F64.long_X ++ [tr]
    /\ F64.profit_loss tr = 0.30000000000000004%float
    /\ (F64.profit_loss tr =? 0.3)%float = false
    /\ (0.3 <? F64.profit_loss tr)%float = true.
Proof.
  eexists. eexists.
  split; [vm_compute; reflexivity |].
  split; [vm_compute; reflexivity |].
  split; [vm_compute; reflexivity |].
  split; [vm_compute; reflexivity |].
  split; vm_compute; reflexivity.
Qed.

(** C5, amended.  In binary64, for every state with an open position on
    the ticker, [close_position] returns [True]; the profit or loss is the
    float [(exit - entry) * quantity] for a LONG and
    [(entry - exit) * quantity] for a SHORT; the cash becomes the float
    [cash + (POSITION_SIZE + profit_loss)]; the position is removed; and
    exactly one trade is appended, with the action SELL for a LONG and
    COVER for a SHORT, the exit price, the quantity of the position, that
    profit or loss and the reason.  Without a position on the ticker the
    call returns [False] and changes nothing.  In the example (LONG on "X"
    at 100 from the initial state, cash 990, closed at 103) the profit is
    the float 0.30000000000000004, not 0.3, the cash becomes 1000.3 and no
    position is left. *)
Theorem close_position_binary64 :
  (forall t x why s pos,
     F64.positions s !! t = Some pos ->
     let pl :=
       match F64.position_type pos with
       | LONG => ((x - F64.entry_price pos) * F64.quantity pos)%float
       | SHORT => ((F64.entry_price pos - x) * F64.quantity pos)%float
       end in
     let act :=
       match F64.position_type pos with
       | LONG => "SELL"%string
       | SHORT => "COVER"%string
       end in
     exists s',
       F64.close_position t x why s = (Py.Return true, s')
       /\ F64.cash s' = (F64.cash s + (F64.POSITION_SIZE + pl))%float
       /\ F64.positions s' = delete t (F64.positions s)
       /\ F64.positions s' !! t = None
       /\ F64.trades s'
          = F64.trades s ++ [F64.mkTrade t act x (F64.quantity pos) pl why])
  /\ (forall t x why s,
        F64.positions s !! t = None ->
        F64.close_position t x why s = (Py.Return false, s))
  /\ (F64.cash F64.long_X = 990%float
      /\ exists s2,
           F64.close_position "X" 103 "take profit reached" F64.long_X
           = (Py.Return true, s2)
           /\ F64.cash s2 = 1000.3%float
           /\ F64.positions s2 = ∅
           /\ F64.trades s2
              = F64.trades F64.long_X
                ++ [F64.mkTrade "X" "SELL" 103 0.1 0.30000000000000004
                      "take profit reached"]
           /\ (0.30000000000000004 =? 0.3)%float = false).
Proof.
  split; [| split].
  - intros t x why s pos Hpos pl act.
    rewrite f64_close_position_unfold, Hpos.
    eexists. split; [reflexivity |]. simpl.
    split; [reflexivity |].
    split; [reflexivity |].
    split; [apply lookup_delete_eq |].
    reflexivity.
  - intros t x why s Hnone.
    now rewrite f64_close_position_unfold, Hnone.
  - split; [vm_compute; reflexivity |].
    eexists.
    split; [vm_compute; reflexivity |].
    split; [vm_compute; reflexivity |].
    split; [vm_compute; reflexivity |].
    split; vm_compute; reflexivity.
Qed.

Lemma close_position_binary64_witness :
  let s :=
    F64.after (F64.OpenShort "Y" (F64.NpFloat64 50)) F64.long_X in
  (exists s',
     F64.close_position "Y" 48 "take profit reached" s = (Py.Return true, s')
     /\ F64.cash s'
        = (F64.cash s + (F64.POSITION_SIZE + (50 - 48) * (10 / 50)))%float
     /\ F64.positions s' !! "Y"%string = None
     /\ F64.trades s'
        = F64.trades s
          ++ [F64.mkTrade "Y" "COVER" 48 (10 / 50) ((50 - 48) * (10 / 50))
                "take profit reached"])
  /\ F64.close_position "Z" 48 "take profit reached" s = (Py.Return false, s).
Proof.
  intros s. split.
  - destruct (proj1 close_position_binary64 "Y"%string 48%float
                "take profit reached"%string s
                (F64.new_position SHORT "Y" 50 (10 / 50)%float))
      as (s' & Hclose & Hcash & _ & Hnone & Htrades).
    + vm_compute. reflexivity.
    + exists s'. split; [exact Hclose |]. split; [exact Hcash |].
      split; [exact Hnone | exact Htrades].
  - apply (proj1 (proj2 close_position_binary64)). vm_compute. reflexivity.
Defined.

(* ===================================================================== *)
(** ** Opening a position in binary64 *)
(* ===================================================================== *)




(* ===================================================================== *)
(** ** Conservation in binary64 *)
(* ===================================================================== *)

(** C10, as stated, fails.  The state after a LONG on "X" bought at 13.3
    and sold at 13.43 is reachable from the initial state; it has no open
    position, its cash is 1000.0977443609022, and the initial budget plus
    the sum of the recorded profit_loss values is 1000.0977443609023: the
    equation is false there. *)
Lemma conservation_counterexample :
  F64.reachable F64.bought_and_sold
  /\ F64.open_count F64.bought_and_sold = 0%nat
  /\ (F64.cash F64.bought_and_sold
      + F64.POSITION_SIZE * F64.of_nat (F64.open_count F64.bought_and_sold)
      = 1000.0977443609022)%float
  /\ (F64.INITIAL_BUDGET
      + F64.sum_profit_loss (F64.trades F64.bought_and_sold)
      = 1000.0977443609023)%float
  /\ F64.conserved F64.bought_and_sold = false.
Proof.
  split.
  { unfold F64.bought_and_sold. simpl.
    apply F64.reachable_call, F64.reachable_call, F64.reachable_initial. }
  split; [vm_compute; reflexivity |].
  split; [vm_compute; reflexivity |].
  split; vm_compute; reflexivity.
Qed.

(** C10, amended.  In binary64 the equation
    cash + POSITION_SIZE * (open positions)
      = INITIAL_BUDGET + sum of profit_loss
    holds in the initial state, and every call of [open_long_position],
    [open_short_position] or [close_position] does one of three things:
    it leaves the state as it is; or (an open) it sets the cash to the
    float [cash - POSITION_SIZE], adds one position and appends one
    opening trade with profit_loss 0; or (a close) it sets the cash to the
    float [cash + (POSITION_SIZE + profit_loss)], removes one position and
    appends one closing trade carrying that profit_loss.  Each cash update
    is a rounded operation, and the equation between the two sides is not
    kept by them (the state above breaks it).  What is kept in every
    reachable state is the count: the opening trades are as many as the
    closing trades and the open positions together. *)
Theorem conservation_binary64 :
  F64.conserved F64.initial_portfolio = true
  /\ (forall c s,
        F64.after c s = s
        \/ (exists tr,
              F64.is_opening tr
              /\ F64.profit_loss tr = 0%float
              /\ F64.cash (F64.after c s)
                 = (F64.cash s - F64.POSITION_SIZE)%float
              /\ F64.open_count (F64.after c s) = S (F64.open_count s)
              /\ F64.trades (F64.after c s) = F64.trades s ++ [tr])
        \/ (exists tr,
              F64.is_closing tr
              /\ F64.cash (F64.after c s)
                 = (F64.cash s
                    + (F64.POSITION_SIZE + F64.profit_loss tr))%float
              /\ F64.open_count s = S (F64.open_count (F64.after c s))
              /\ F64.trades (F64.after c s) = F64.trades s ++ [tr]))
  /\ (forall s,
        F64.reachable s ->
        length (F64.openings (F64.trades s))
        = (length (F64.closings (F64.trades s)) + F64.open_count s)%nat).
Proof.
  assert (Hstep : forall c s,
    F64.after c s = s
    \/ (exists tr,
          F64.is_opening tr
          /\ F64.profit_loss tr = 0%float
          /\ F64.cash (F64.after c s)
             = (F64.cash s - F64.POSITION_SIZE)%float
          /\ F64.open_count (F64.after c s) = S (F64.open_count s)
          /\ F64.trades (F64.after c s) = F64.trades s ++ [tr])
    \/ (exists tr,
          F64.is_closing tr
          /\ F64.cash (F64.after c s)
             = (F64.cash s
                + (F64.POSITION_SIZE + F64.profit_loss tr))%float
          /\ F64.open_count s = S (F64.open_count (F64.after c s))
          /\ F64.trades (F64.after c s) = F64.trades s ++ [tr])).
  { intros c s.
    destruct (f64_after_cases c s)
      as [H | [(d & p & qty & Hfree & H) | (pos & x & why & Hpos & H)]].
    - now left.
    - right. left. exists (F64.opening_trade d (F64.call_ticker c) p qty).
      rewrite H. unfold F64.open_count. simpl.
      split; [apply f64_opening_trade_is_opening |].
      split; [reflexivity |].
      split; [reflexivity |].
      split; [now apply map_size_insert_None |].
      reflexivity.
    - right. right.
      exists (F64.closing_trade pos (F64.call_ticker c) x why).
      rewrite H. unfold F64.open_count. simpl.
      split; [apply f64_closing_trade_is_closing |].
      split; [reflexivity |].
      split; [now apply (size_delete_Some _ _ pos) |].
      reflexivity. }
  split; [vm_compute; reflexivity |].
  split; [exact Hstep |].
  induction 1 as [| c s _ IH]; [reflexivity |].
  destruct (Hstep c s)
    as [-> | [(tr & Hop & _ & _ & Hcount & ->)
             | (tr & Hcl & _ & Hcount & ->)]].
  - exact IH.
  - rewrite f64_openings_snoc, f64_closings_snoc, !length_app, Hcount.
    destruct (decide (F64.is_opening tr)) as [_ | Hn]; [| contradiction].
    destruct (decide (F64.is_closing tr)) as [Hc | _];
      [now apply f64_opening_not_closing in Hop |].
    simpl. lia.
  - rewrite f64_openings_snoc, f64_closings_snoc, !length_app.
    rewrite Hcount in IH.
    destruct (decide (F64.is_closing tr)) as [_ | Hn]; [| contradiction].
    destruct (decide (F64.is_opening tr)) as [Ho | _];
      [now apply f64_opening_not_closing in Ho |].
    simpl. lia.
Qed.

Lemma conservation_binary64_witness :
  length (F64.openings (F64.trades F64.sold_beside_Y))
  = (length (F64.closings (F64.trades F64.sold_beside_Y))
     + F64.open_count F64.sold_beside_Y)%nat.
Proof.
  apply (proj2 (proj2 conservation_binary64) F64.sold_beside_Y).
  unfold F64.sold_beside_Y. simpl.
  apply F64.reachable_call, F64.reachable_call, F64.reachable_call,
    F64.reachable_initial.
Defined.
